(** * The ClusterWorkspaceShard controller and the heartbeat options

    A shallow embedding of
    - [pkg/reconciler/workload/heartbeat/heartbeat_start.go] (the [Options]
      of the heartbeat controller and their validation), and
    - the [clusterworkspaceshard] controller (the handlers registered by
      [NewController], [enqueue], [Start], [startWorker],
      [processNextWorkItem], [process], [reconcile]).

    The controller works on pointers: the object handed out by the lister
    lives in the informer cache and is shared, label maps are Go maps
    (references).  The embedding therefore keeps an explicit store with one
    heap of shard structs and one heap of label maps, and a log of the calls
    made on the collaborators (work queue, error sink, API client).
    Logging has no effect on control flow and is left out. *)

From Stdlib Require Import ZArith Ascii String List.
From stdpp Require Import base option list strings gmap fin_maps.

Local Open Scope string_scope.
Local Open Scope list_scope.

(* ===================================================================== *)
(** ** JSON documents and merge patches *)
(* ===================================================================== *)

(** A JSON document after decoding.  [encoding/json] unmarshals an object
    into a [map[string]interface{}]; the field list of [JObject] stands for
    that map and is read through [jlookup] only. *)
#[warnings="-register-all"]
Inductive json : Type :=
| JNull
| JBool (b : bool)
| JNumber (z : Z)
| JString (s : string)
| JArray (items : list json)
| JObject (fields : list (string * json)).

Fixpoint jlookup (k : string) (fields : list (string * json)) : option json :=
  match fields with
  | [] => None
  | (k', v) :: rest => if String.eqb k k' then Some v else jlookup k rest
  end.

Definition jhas (k : string) (fields : list (string * json)) : bool :=
  match jlookup k fields with Some _ => true | None => false end.

(** [reflect.TypeOf(av) != reflect.TypeOf(bv)] on decoded JSON. *)
Definition sameType (a b : json) : bool :=
  match a, b with
  | JNull, JNull | JBool _, JBool _ | JNumber _, JNumber _
  | JString _, JString _ | JArray _, JArray _ | JObject _, JObject _ => true
  | _, _ => false
  end.

(** [matchesValue] of the merge-patch library: same type and same content;
    two objects match when they have the same number of keys and every key
    of the second is present in the first with a matching value. *)
Fixpoint matchesValue (av bv : json) {struct bv} : bool :=
  match bv, av with
  | JNull, JNull => true
  | JBool b, JBool a => Bool.eqb a b
  | JNumber b, JNumber a => Z.eqb a b
  | JString b, JString a => String.eqb a b
  | JArray bt, JArray at_ =>
      (fix matchesArray (a : list json) (b : list json) {struct b} : bool :=
         match b, a with
         | [], [] => true
         | y :: b', x :: a' => matchesValue x y && matchesArray a' b'
         | _, _ => false
         end) at_ bt
  | JObject bt, JObject at_ =>
      Nat.eqb (length bt) (length at_) &&
      (fix all (b : list (string * json)) : bool :=
         match b with
         | [] => true
         | (key, y) :: b' =>
             match jlookup key at_ with
             | Some x => matchesValue x y && all b'
             | None => false
             end
         end) bt
  | _, _ => false
  end.

(** Keys of [a] that [b] no longer has: they enter the patch as [null]. *)
Definition deletedKeys (a b : list (string * json)) : list (string * json) :=
  map (fun kv => (fst kv, JNull)) (List.filter (fun kv => negb (jhas (fst kv) b)) a).

(** The entry of the patch for one key present on both sides, [None] when
    the key does not enter the patch. *)
Fixpoint diffValue (av bv : json) {struct bv} : option json :=
  if negb (sameType av bv) then Some bv      (* type changed: replace *)
  else
    match bv, av with
    | JObject bt, JObject at_ =>
        let dst :=
          (fix each (b : list (string * json)) : list (string * json) :=
             match b with
             | [] => []
             | (key, y) :: b' =>
                 match jlookup key at_ with
                 | None => (key, y) :: each b'          (* value was added *)
                 | Some x =>
                     match diffValue x y with
                     | Some d => (key, d) :: each b'
                     | None => each b'
                     end
                 end
             end) bt ++ deletedKeys at_ bt in
        match dst with [] => None | _ => Some (JObject dst) end
    | JNull, _ => None                                     (* both nil *)
    | _, _ => if matchesValue av bv then None else Some bv
    end.

(** [getDiff a b]: the recursive difference between two decoded objects. *)
Fixpoint getDiff (a b : list (string * json)) : list (string * json) :=
  match b with
  | [] => []
  | (key, bv) :: b' =>
      match jlookup key a with
      | None => (key, bv) :: getDiff a b'
      | Some av =>
          match diffValue av bv with
          | Some d => (key, d) :: getDiff a b'
          | None => getDiff a b'
          end
      end
  end.

(** [jsonpatch.CreateMergePatch] on two objects: the keys of the modified
    document whose value is new or different, then the removed keys. *)
Definition CreateMergePatch (original modified : list (string * json)) : json :=
  JObject (getDiff original modified ++ deletedKeys original modified).

(* ===================================================================== *)
(** ** A state monad with failure *)
(* ===================================================================== *)

(** Code that reads and writes a world [W].  [None]: no result (a [Get]
    blocked on an empty queue, or a pointer outside the store, which Go
    excludes). *)
Definition StateM (W A : Type) : Type := W -> option (A * W).

Definition ret {W A} (a : A) : StateM W A := fun w => Some (a, w).

Definition bind {W A B} (m : StateM W A) (k : A -> StateM W B) : StateM W B :=
  fun w => match m w with
           | Some (a, w') => k a w'
           | None => None
           end.

Notation "'let*' x ':=' m 'in' k" := (bind m (fun x => k))
  (at level 10, x pattern, m at level 200, k at level 200).
Notation "m '>>' k" := (bind m (fun _ => k))
  (at level 100, k at level 200, right associativity).

(* ===================================================================== *)
(** ** Errors *)
(* ===================================================================== *)

(** The [metav1.StatusReason] values this controller can meet. *)
Inductive StatusReason : Type :=
| StatusReasonUnknown
| StatusReasonNotFound
| StatusReasonConflict
| StatusReasonInternalError.

(** Go [error] values: an API status error, [errors.New], and [fmt.Errorf]
    with a [%w] verb, which keeps the cause reachable for [errors.As]. *)
Inductive FmtArg : Type :=
| ArgString (s : string)
| ArgDuration (nanoseconds : Z).

Inductive error : Type :=
| StatusError (reason : StatusReason) (message : string)
| ErrorString (message : string)
| Errorf (format : string) (args : list FmtArg)
| Errorf_w (format : string) (args : list FmtArg) (cause : error).

(** [kerrors.ReasonForError]: the reason of the first API status error in
    the chain of causes. *)
Fixpoint ReasonForError (err : error) : StatusReason :=
  match err with
  | StatusError reason _ => reason
  | ErrorString _ | Errorf _ _ => StatusReasonUnknown
  | Errorf_w _ _ cause => ReasonForError cause
  end.

Definition IsNotFound (err : error) : bool :=
  match ReasonForError err with StatusReasonNotFound => true | _ => false end.

(* ===================================================================== *)
(** ** Keys *)
(* ===================================================================== *)

(** [strings.Split] of a key at its slashes: never empty, one more part
    than separators. *)
Fixpoint splitSlash (s : string) : list string :=
  match s with
  | EmptyString => [EmptyString]
  | String c rest =>
      if Ascii.eqb c "/"%char then EmptyString :: splitSlash rest
      else match splitSlash rest with
           | part :: parts => String c part :: parts
           | [] => [String c EmptyString]
           end
  end.

(** [cache.SplitMetaNamespaceKey]: a name alone, or namespace and name. *)
Definition SplitMetaNamespaceKey (key : string) : (string * string) + error :=
  match splitSlash key with
  | [name] => inl (EmptyString, name)
  | [namespace; name] => inl (namespace, name)
  | _ => inr (Errorf "unexpected key format: %q" [ArgString key])
  end.

(* ===================================================================== *)
(** ** What the controller takes from other packages *)
(* ===================================================================== *)

(** The API types of the shard ([ClusterWorkspaceShardStatus], the zero
    [ClusterWorkspaceShardSpec]), the root cluster name and the key function
    of the informer are declared outside the two files embedded here; they
    are parameters of the development.  [statusDeepEqual] is
    [equality.Semantic.DeepEqual] at the status type, which holds between a
    value and itself. *)
Class Externals : Type := {
  ShardStatus : Type;
  statusDeepEqual : ShardStatus -> ShardStatus -> bool;
  statusDeepEqual_refl : forall s, statusDeepEqual s s = true;
  zeroStatus : ShardStatus;
  marshalStatus : ShardStatus -> json;
  marshalZeroSpec : json;
  RootCluster : string;
  Notification : Type;
  MetaClusterNamespaceKeyFunc : Notification -> string + error
}.

Definition ControllerName : string := "kcp-clusterworkspaceshard".

Definition shardLabel : string := "tenancy.kcp.dev/shard".

(* ===================================================================== *)
(** ** Objects, the store and the log of calls *)
(* ===================================================================== *)

(** Pointers are indices into a heap. *)
Abbreviation loc := nat.

Section Model.
Context {ext : Externals}.

(** The fields of [tenancyv1alpha1.ClusterWorkspaceShard] that the
    controller reads or writes.  [Labels] is a Go map: [None] is the nil
    map, [Some m] a reference to the map stored at [m]. *)
Record ClusterWorkspaceShard : Type := {
  Name : string;
  UID : string;
  ResourceVersion : string;
  Labels : option loc;
  Status : ShardStatus
}.

Definition withLabels (s : ClusterWorkspaceShard) (l : option loc) : ClusterWorkspaceShard :=
  {| Name := Name s; UID := UID s; ResourceVersion := ResourceVersion s;
     Labels := l; Status := Status s |}.

Inductive PatchType : Type := JSONPatchType | MergePatchType | StrategicMergePatchType.

(** One call of [ClusterWorkspaceShards().Patch]. *)
Record PatchCall : Type := {
  patchCluster : string;
  patchName : string;
  patchType : PatchType;
  patchData : json;
  patchSubresources : list string
}.

(** The calls the controller makes on its collaborators. *)
Inductive Event : Type :=
| QueueAdd (key : string)
| QueueAddRateLimited (key : string)
| QueueForget (key : string)
| QueueDone (key : string)
| QueueShutDown
| HandleError (err : error)
| ClientPatch (call : PatchCall)
| GoWorker (i : Z).

(** The mutable world: both heaps, the calls made so far (oldest first),
    and the work queue as the workers see it: the keys it will hand out
    next and whether it has been shut down. *)
Record World : Type := {
  shards : list ClusterWorkspaceShard;
  labelMaps : list (gmap string string);
  calls : list Event;
  queued : list string;
  shuttingDown : bool
}.

(** The controller: the responses of its collaborators.  The lister maps a
    key to a pointer into the informer cache or to an error; the client
    answers a patch with an error or with success. *)
Record Controller : Type := {
  clusterWorkspaceShardLister : string -> loc + error;
  kcpClient : PatchCall -> option error
}.

(** The monad of the controller's code. *)
Definition M (A : Type) : Type := StateM World A.

Definition setShards (w : World) (h : list ClusterWorkspaceShard) : World :=
  {| shards := h; labelMaps := labelMaps w; calls := calls w;
     queued := queued w; shuttingDown := shuttingDown w |}.

Definition setLabelMaps (w : World) (h : list (gmap string string)) : World :=
  {| shards := shards w; labelMaps := h; calls := calls w;
     queued := queued w; shuttingDown := shuttingDown w |}.

Definition setCalls (w : World) (t : list Event) : World :=
  {| shards := shards w; labelMaps := labelMaps w; calls := t;
     queued := queued w; shuttingDown := shuttingDown w |}.

Definition setQueued (w : World) (q : list string) : World :=
  {| shards := shards w; labelMaps := labelMaps w; calls := calls w;
     queued := q; shuttingDown := shuttingDown w |}.

Definition emit (e : Event) : M unit :=
  fun w => Some (tt, setCalls w (calls w ++ [e])).

(** Reads and writes through a [*ClusterWorkspaceShard]. *)
Definition loadShard (p : loc) : M ClusterWorkspaceShard :=
  fun w => match shards w !! p with
           | Some s => Some (s, w)
           | None => None
           end.

Definition storeShard (p : loc) (s : ClusterWorkspaceShard) : M unit :=
  fun w => match shards w !! p with
           | Some _ => Some (tt, setShards w (<[p := s]> (shards w)))
           | None => None
           end.

Definition newShard (s : ClusterWorkspaceShard) : M loc :=
  fun w => Some (length (shards w), setShards w (shards w ++ [s])).

(** Reads and writes through a map reference. *)
Definition loadMap (m : loc) : M (gmap string string) :=
  fun w => match labelMaps w !! m with
           | Some c => Some (c, w)
           | None => None
           end.

Definition makeMap (content : gmap string string) : M loc :=
  fun w => Some (length (labelMaps w), setLabelMaps w (labelMaps w ++ [content])).

Definition mapAssign (m : loc) (k v : string) : M unit :=
  fun w => match labelMaps w !! m with
           | Some c => Some (tt, setLabelMaps w (<[m := <[k := v]> c]> (labelMaps w)))
           | None => None
           end.

(** The content behind a [map[string]string] field, [None] for nil. *)
Definition readLabels (l : option loc) : M (option (gmap string string)) :=
  match l with
  | None => ret None
  | Some m => let* c := loadMap m in ret (Some c)
  end.


(* ===================================================================== *)
(** ** The controller *)
(* ===================================================================== *)

(** Modelled from the spec: [DeepCopy] is generated code that is not part
    of the two embedded files; the working copy is a deep copy of the
    snapshot that reconcile may mutate freely.  A new struct and, when the
    label map is not nil, a new map with the same entries; nothing is
    shared with the receiver. *)
Definition DeepCopy (p : loc) : M loc :=
  let* s := loadShard p in
  let* labels :=
    match Labels s with
    | None => ret None
    | Some m => let* c := loadMap m in
                let* m' := makeMap c in
                ret (Some m')
    end in
  newShard (withLabels s labels).

(** [equality.Semantic.DeepEqual] on [map[string]string]: a nil and an empty
    map are equal, otherwise the same keys with the same values. *)
Definition labelsDeepEqual (a b : option (gmap string string)) : bool :=
  bool_decide (default ∅ a = default ∅ b).

(** A string field tagged [omitempty]. *)
Definition omitempty (name value : string) : list (string * json) :=
  if String.eqb value EmptyString then [] else [(name, JString value)].

(** A [map[string]string] field tagged [omitempty]: left out when the map is
    nil or has no entry. *)
Definition omitemptyMap (name : string) (l : option (gmap string string))
  : list (string * json) :=
  match map_to_list (default ∅ l) with
  | [] => []
  | kvs => [(name, JObject (map (fun kv => (fst kv, JString (snd kv))) kvs))]
  end.

(** [json.Marshal] of an [ObjectMeta] and of a [ClusterWorkspaceShard] literal that sets [UID],
    [ResourceVersion], [Labels] and [Status] and leaves every other field
    zero.  The zero creation time is written as [null]; the other metadata
    fields are [omitempty]. *)
Definition marshalObjectMeta (uid resourceVersion : string)
    (labels : option (gmap string string)) : list (string * json) :=
  omitempty "uid" uid
  ++ omitempty "resourceVersion" resourceVersion
  ++ [("creationTimestamp", JNull)]
  ++ omitemptyMap "labels" labels.

Definition Marshal (uid resourceVersion : string)
    (labels : option (gmap string string)) (status : ShardStatus)
  : list (string * json) :=
  [ ("metadata", JObject (marshalObjectMeta uid resourceVersion labels));
    ("spec", marshalZeroSpec);
    ("status", marshalStatus status) ].

(** [c.kcpClient...ClusterWorkspaceShards().Patch(...)]: the call is logged
    and the client's answer returned. *)
Definition Patch (c : Controller) (cluster name : string) (pt : PatchType)
    (data : json) (subresources : list string) : M (option error) :=
  let call := {| patchCluster := cluster; patchName := name; patchType := pt;
                 patchData := data; patchSubresources := subresources |} in
  emit (ClientPatch call) >> ret (kcpClient c call).

(** [reconcile]: stamps the shard's own name as its shard label. *)
Definition reconcile (c : Controller) (workspaceShard : loc) : M (option error) :=
  let* s := loadShard workspaceShard in
  let* m :=
    match Labels s with
    | None => let* m := makeMap ∅ in
              storeShard workspaceShard (withLabels s (Some m)) >> ret m
    | Some m => ret m
    end in
  mapAssign m shardLabel (Name s) >>
  ret None.

(** [process], with the reconcile function it calls as a parameter. *)
Definition processWith (reconcile : loc -> M (option error))
    (c : Controller) (key : string) : M (bool * option error) :=
  match SplitMetaNamespaceKey key with
  | inr _ => ret (false, None)
  | inl (namespace, name) =>
  if negb (String.eqb namespace EmptyString) then ret (false, None) else
  match clusterWorkspaceShardLister c key with
  | inr err =>
      if IsNotFound err then ret (false, None) (* object deleted before we handled it *)
      else ret (true, Some err)
  | inl obj =>
  let previous := obj in
  let* obj := DeepCopy obj in
  let* rerr := reconcile obj in
  match rerr with
  | Some err => ret (true, Some err)
  | None =>
  let* prev := loadShard previous in
  let* cur := loadShard obj in
  (* If the status of the object being reconciled changed as a result, update it. *)
  if negb (statusDeepEqual (Status prev) (Status cur)) then
    let oldData := Marshal (UID prev) (ResourceVersion prev) None (Status prev) in
    let newData := Marshal (UID prev) (ResourceVersion prev) None (Status cur) in
    let patchBytes := CreateMergePatch oldData newData in
    let* uerr := Patch c RootCluster (Name cur) MergePatchType patchBytes ["status"] in
    match uerr with
    | Some uerr => ret (true, Some uerr)
    | None => ret (true, None)
    end
  else
  (* If the labels of the object being reconciled changed as a result, update it. *)
  let* prevLabels := readLabels (Labels prev) in
  let* curLabels := readLabels (Labels cur) in
  if match Labels prev with None => true | Some _ => false end
     || negb (labelsDeepEqual prevLabels curLabels) then
    let oldData := Marshal (UID prev) (ResourceVersion prev) prevLabels zeroStatus in
    let newData := Marshal (UID prev) (ResourceVersion prev) curLabels zeroStatus in
    let patchBytes := CreateMergePatch oldData newData in
    let* uerr := Patch c RootCluster (Name cur) MergePatchType patchBytes [] in
    match uerr with
    | Some uerr => ret (true, Some uerr)
    | None => ret (true, None)
    end
  else ret (false, None)
  end
  end
  end.

Definition process (c : Controller) (key : string) : M (bool * option error) :=
  processWith (reconcile c) c key.

(** [c.queue.Get()]: the next key, or [quit] once the queue is shut down
    and drained; blocks while the queue is empty and open. *)
Definition queueGet : M (string * bool) :=
  fun w => match queued w with
           | k :: rest => Some ((k, false), setQueued w rest)
           | [] => if shuttingDown w then Some ((EmptyString, true), w) else None
           end.

(** [processNextWorkItem], over the [process] it dispatches on.  The
    deferred [Done] runs last on every path that passed the [defer]. *)
Definition processNextWorkItemWith (process : string -> M (bool * option error))
  : M bool :=
  let* got := queueGet in
  let key := fst got in
  if snd got then ret false else
  let* r := process key in
  let* result :=
    match snd r with
    | Some err =>
        emit (HandleError (Errorf_w "%q controller failed to sync %q, err: %w"
                             [ArgString ControllerName; ArgString key] err)) >>
        emit (QueueAddRateLimited key) >>
        ret true
    | None =>
        (if fst r
         then emit (QueueAdd key) (* only requeue if we didn't error *)
         else ret tt) >>
        emit (QueueForget key) >>
        ret true
    end in
  emit (QueueDone key) >>
  ret result.

Definition processNextWorkItem (c : Controller) : M bool :=
  processNextWorkItemWith (process c).

(** [enqueue]: the handler of add and update notifications. *)
Definition enqueue (obj : Notification) : M unit :=
  match MetaClusterNamespaceKeyFunc obj with
  | inr err => emit (HandleError err)
  | inl key => emit (QueueAdd key)
  end.

(** The notifications of the informer, and the handlers [NewController]
    registers for them: [AddFunc] enqueues the object, [UpdateFunc] drops
    the old object and enqueues the new one. *)
Inductive InformerEvent : Type :=
| Added (obj : Notification)
| Updated (oldObj obj : Notification).

Definition handle (ev : InformerEvent) : M unit :=
  match ev with
  | Added obj => enqueue obj
  | Updated _ obj => enqueue obj
  end.

(** The handlers run on a sequence of notifications. *)
Fixpoint deliver (evs : list InformerEvent) : M unit :=
  match evs with
  | [] => ret tt
  | ev :: rest => handle ev >> deliver rest
  end.

(** [startWorker]: [for c.processNextWorkItem(ctx) {}], over the step it
    repeats.  [fuel] bounds the number of iterations; without fuel left
    there is no result. *)
Fixpoint startWorkerWith (step : M bool) (fuel : nat) : M unit :=
  match fuel with
  | O => fun _ => None
  | S n => let* more := step in
           if more then startWorkerWith step n else ret tt
  end.

Definition startWorker (c : Controller) (fuel : nat) : M unit :=
  startWorkerWith (processNextWorkItem c) fuel.

(** The loop of [Start]: [for i := 0; i < numThreads; i++ { go ... }]. *)
Fixpoint launch (indices : list Z) : M unit :=
  match indices with
  | [] => ret tt
  | i :: rest => emit (GoWorker i) >> launch rest
  end.

(** [Start], up to the moment its context is done and the deferred
    [ShutDown] has run.  [numThreads] is a Go [int]. *)
Definition Start (numThreads : Z) : M unit :=
  launch (seqZ 0 numThreads) >>
  emit QueueShutDown.

End Model.

(* ===================================================================== *)
(** ** Options of the heartbeat controller *)
(* ===================================================================== *)

Module Heartbeat.

(** [time.Duration]: a count of nanoseconds. *)
Definition Minute : Z := (60 * 1000000000)%Z.

Record Options : Type := { HeartbeatThreshold : Z }.

Definition DefaultOptions : Options := {| HeartbeatThreshold := Minute |}.

Definition Validate (o : Options) : option error :=
  if (HeartbeatThreshold o <=? 0)%Z
  then Some (Errorf "--workload-cluster-heartbeat-threshold must be >0 (%s)"
               [ArgDuration (HeartbeatThreshold o)])
  else None.

End Heartbeat.

(* ===================================================================== *)
(** ** A concrete instance, to run the controller on *)
(* ===================================================================== *)

Module Sample.

(** A status made of conditions (type, status); compared as lists, written
    as an array that is left out when empty. *)
Definition Conditions : Type := list (string * string).

Definition conditionsEqual (a b : Conditions) : bool := bool_decide (a = b).

Definition conditionsEqual_refl (s : Conditions) : conditionsEqual s s = true :=
  bool_decide_eq_true_2 (s = s) eq_refl.

Definition marshalConditions (s : Conditions) : json :=
  match s with
  | [] => JObject []
  | _ => JObject [("conditions",
           JArray (map (fun c => JObject [("type", JString (fst c));
                                          ("status", JString (snd c))]) s))]
  end.

(** What an informer can notify about: an object with metadata, or a value
    without (for which no key can be built). *)
Inductive Notified : Type :=
| Object (cluster namespace name : string)
| NoMeta.

Definition keyFunc (obj : Notified) : string + error :=
  match obj with
  | Object cluster namespace name =>
      inl ((if String.eqb cluster EmptyString then EmptyString else cluster ++ "|")
           ++ (if String.eqb namespace EmptyString then EmptyString else namespace ++ "/")
           ++ name)%string
  | NoMeta => inr (Errorf "object has no meta: %v" [ArgString "object does not implement the Object interfaces"])
  end.

#[export] Instance externals : Externals := {|
  ShardStatus := Conditions;
  statusDeepEqual := conditionsEqual;
  statusDeepEqual_refl := conditionsEqual_refl;
  zeroStatus := [];
  marshalStatus := marshalConditions;
  marshalZeroSpec := JObject [("baseURL", JString EmptyString); ("externalURL", JString EmptyString)];
  RootCluster := "root";
  Notification := Notified;
  MetaClusterNamespaceKeyFunc := keyFunc
|}.

(** A shard without labels, cached under the key [root|shard-1]. *)
Definition bare : ClusterWorkspaceShard :=
  {| Name := "shard-1"; UID := "uid-1"; ResourceVersion := "7";
     Labels := None; Status := [] |}.

(** The same shard once its label is stamped; its label map is map 0. *)
Definition stamped : ClusterWorkspaceShard :=
  {| Name := "shard-1"; UID := "uid-1"; ResourceVersion := "8";
     Labels := Some 0; Status := [] |}.

Definition emptyWorld : World :=
  {| shards := []; labelMaps := []; calls := []; queued := []; shuttingDown := false |}.

Definition bareWorld : World :=
  {| shards := [bare]; labelMaps := []; calls := [];
     queued := ["root|shard-1"]; shuttingDown := false |}.

Definition stampedWorld : World :=
  {| shards := [stamped]; labelMaps := [ {[ shardLabel := "shard-1" ]} ];
     calls := []; queued := ["root|shard-1"]; shuttingDown := false |}.

Definition notFound : error :=
  StatusError StatusReasonNotFound "clusterworkspaceshard not found".

Definition conflict : error :=
  StatusError StatusReasonConflict "the object has been modified".

Definition internal : error :=
  StatusError StatusReasonInternalError "index failure".

(** A lister whose cache holds one shard, at pointer 0. *)
Definition oneShardLister (key : string) : loc + error :=
  if String.eqb key "root|shard-1" then inl 0 else inr notFound.

Definition accepting : Controller :=
  {| clusterWorkspaceShardLister := oneShardLister;
     kcpClient := fun _ => None |}.

Definition rejecting : Controller :=
  {| clusterWorkspaceShardLister := oneShardLister;
     kcpClient := fun _ => Some conflict |}.

Definition failingLister : Controller :=
  {| clusterWorkspaceShardLister := fun _ => inr internal;
     kcpClient := fun _ => None |}.

(** A reconcile function that also moves the status. *)
Definition markReady (workspaceShard : loc) : M (option error) :=
  let* s := loadShard workspaceShard in
  storeShard workspaceShard
    {| Name := Name s; UID := UID s; ResourceVersion := ResourceVersion s;
       Labels := Labels s; Status := [("Ready", "True")] |} >>
  reconcile accepting workspaceShard.

(** The worlds of a pass with [markReady] on [bareWorld]: after the deep
    copy, and after the reconcile function. *)
Definition copiedWorld : World := setShards bareWorld [bare; bare].

Definition readyCopy : ClusterWorkspaceShard :=
  {| Name := "shard-1"; UID := "uid-1"; ResourceVersion := "7";
     Labels := Some 0; Status := [("Ready", "True")] |}.

Definition readyWorld : World :=
  setLabelMaps (setShards bareWorld [bare; readyCopy])
               [ {[ shardLabel := "shard-1" ]} ].

(** [bareWorld] once its key has been taken from the queue. *)
Definition dequeuedWorld : World := setQueued bareWorld [].

(** A shard that carries a team label and a stale identity label; its label
    map is map 0. *)
Definition staleLabels : gmap string string :=
  {[ shardLabel := "shard-0"; "team" := "blue" ]}.

Definition mislabelled : ClusterWorkspaceShard :=
  {| Name := "shard-1"; UID := "uid-1"; ResourceVersion := "9";
     Labels := Some 0; Status := [] |}.

Definition mislabelledWorld : World :=
  {| shards := [mislabelled]; labelMaps := [staleLabels]; calls := [];
     queued := ["root|shard-1"]; shuttingDown := false |}.

(** A queue that has been shut down with two keys left, the second one
    malformed. *)
Definition closingWorld : World :=
  {| shards := [bare]; labelMaps := []; calls := [];
     queued := ["root|shard-1"; "a/b/c"]; shuttingDown := true |}.

(** A reconcile function that fails, and one that does nothing. *)
Definition failing (workspaceShard : loc) : M (option error) :=
  ret (Some internal).

Definition idle (workspaceShard : loc) : M (option error) :=
  ret None.

(** Three notifications: an added shard, a value without metadata, and an
    update. *)
Definition notifications : list InformerEvent :=
  [ Added (Object "root" EmptyString "shard-1");
    Added NoMeta;
    Updated (Object "root" EmptyString "shard-1") (Object "root" EmptyString "shard-2") ].

End Sample.

(* ===================================================================== *)
(** ** What one pass is expected to leave behind *)
(* ===================================================================== *)

Section Expected.
Context {ext : Externals}.

(** A key that [process] refuses: it does not split, or it names a
    namespace although the shard type is cluster-wide. *)
Definition malformedKey (key : string) : bool :=
  match SplitMetaNamespaceKey key with
  | inr _ => true
  | inl (namespace, _) => negb (String.eqb namespace EmptyString)
  end.

(** The content behind a label field in a world, if the pointer is valid. *)
Definition labelsAt (w : World) (l : option loc) : option (option (gmap string string)) :=
  match l with
  | None => Some None
  | Some m => match labelMaps w !! m with
              | Some c => Some (Some c)
              | None => None
              end
  end.

(** The labels of a shard after [reconcile]. *)
Definition stampedLabels (s : ClusterWorkspaceShard) (L : option (gmap string string))
  : gmap string string :=
  <[shardLabel := Name s]> (default ∅ L).

(** The working copy after [reconcile]: its label map is the next free map. *)
Definition copyOf (w : World) (s : ClusterWorkspaceShard) : ClusterWorkspaceShard :=
  withLabels s (Some (length (labelMaps w))).

Definition reconciledWorld (w : World) (s : ClusterWorkspaceShard)
    (L : option (gmap string string)) : World :=
  setLabelMaps (setShards w (shards w ++ [copyOf w s]))
               (labelMaps w ++ [stampedLabels s L]).

(** The test of the label group. *)
Definition labelsChanged (s : ClusterWorkspaceShard) (L : option (gmap string string)) : bool :=
  match Labels s with None => true | Some _ => false end
  || negb (labelsDeepEqual L (Some (stampedLabels s L))).

(** The patch of the label group. *)
Definition labelPatch (s : ClusterWorkspaceShard) (L : option (gmap string string)) : PatchCall :=
  {| patchCluster := RootCluster;
     patchName := Name s;
     patchType := MergePatchType;
     patchData := CreateMergePatch
                    (Marshal (UID s) (ResourceVersion s) L zeroStatus)
                    (Marshal (UID s) (ResourceVersion s) (Some (stampedLabels s L)) zeroStatus);
     patchSubresources := [] |}.

(** The patch of the status group, from the original and the copy. *)
Definition statusPatch (prev cur : ClusterWorkspaceShard) : PatchCall :=
  {| patchCluster := RootCluster;
     patchName := Name cur;
     patchType := MergePatchType;
     patchData := CreateMergePatch
                    (Marshal (UID prev) (ResourceVersion prev) None (Status prev))
                    (Marshal (UID prev) (ResourceVersion prev) None (Status cur));
     patchSubresources := ["status"] |}.

(** How [processNextWorkItem] ends for each result of [process]. *)
Definition afterProcess (key : string) (r : bool * option error) : list Event :=
  match snd r with
  | Some err =>
      [HandleError (Errorf_w "%q controller failed to sync %q, err: %w"
                      [ArgString ControllerName; ArgString key] err);
       QueueAddRateLimited key;
       QueueDone key]
  | None =>
      if fst r then [QueueAdd key; QueueForget key; QueueDone key]
      else [QueueForget key; QueueDone key]
  end.

End Expected.

(* ===================================================================== *)
(** ** Reading a patch *)
(* ===================================================================== *)

(** The value of [metadata.<field>] in a patch document, if any. *)
Definition metadataField (field : string) (data : json) : option json :=
  match data with
  | JObject top =>
      match jlookup "metadata" top with
      | Some (JObject meta) => jlookup field meta
      | _ => None
      end
  | _ => None
  end.

(** A patch carries its preconditions when it names the identity and the
    version of the object it was computed from. *)
Definition carriesPreconditions (uid resourceVersion : string) (data : json) : Prop :=
  metadataField "uid" data = Some (JString uid)
  /\ metadataField "resourceVersion" data = Some (JString resourceVersion).

(** The [metadata] entry of a patch document, if any. *)
Definition patchMetadata (data : json) : option json :=
  match data with
  | JObject top => jlookup "metadata" top
  | _ => None
  end.

(** A key without any slash. *)
Fixpoint noSlash (s : string) : bool :=
  match s with
  | EmptyString => true
  | String c rest => negb (Ascii.eqb c "/"%char) && noSlash rest
  end.

(** The keys, in order, of the [Done] calls in a log, and of the calls that
    settle a key after a pass ([Forget] or [AddRateLimited]). *)
Section Logs.
Context {ext : Externals}.

Definition doneKeys (log : list Event) : list string :=
  omap (fun e => match e with QueueDone k => Some k | _ => None end) log.

Definition settledKeys (log : list Event) : list string :=
  omap (fun e => match e with
                 | QueueForget k | QueueAddRateLimited k => Some k
                 | _ => None
                 end) log.

Definition patchCalls (log : list Event) : list PatchCall :=
  omap (fun e => match e with ClientPatch call => Some call | _ => None end) log.

(** Every pointer the lister can hand out is a shard of the store whose
    label map, if any, is a map of the store. *)
Definition cacheValid (c : Controller) (w : World) : Prop :=
  forall key p, clusterWorkspaceShardLister c key = inl p ->
    exists s L, shards w !! p = Some s /\ labelsAt w (Labels s) = Some L.

(** The call [enqueue] makes for a notified object. *)
Definition enqueueCall (obj : Notification) : Event :=
  match MetaClusterNamespaceKeyFunc obj with
  | inr err => HandleError err
  | inl key => QueueAdd key
  end.

Definition notified (ev : InformerEvent) : Notification :=
  match ev with
  | Added obj => obj
  | Updated _ obj => obj
  end.

End Logs.

(* ===================================================================== *)
(** ** The heartbeat options *)
(* ===================================================================== *)

Lemma Validate_error_iff (o : Heartbeat.Options) :
  Heartbeat.Validate o <> None <-> (Heartbeat.HeartbeatThreshold o <= 0)%Z.
Proof.
  unfold Heartbeat.Validate.
  destruct (Z.leb_spec (Heartbeat.HeartbeatThreshold o) 0) as [Hle | Hgt].
  - split; [intros _; exact Hle | intros _; discriminate].
  - split; [intros H; now contradiction H | lia].
Qed.

Lemma Validate_default : Heartbeat.Validate Heartbeat.DefaultOptions = None.
Proof. reflexivity. Qed.

(* ===================================================================== *)
(** ** Running the monad *)
(* ===================================================================== *)

Section Running.
Context {ext : Externals}.

Lemma bind_Some {A B} (m : M A) (k : A -> M B) w a w' :
  m w = Some (a, w') -> bind m k w = k a w'.
Proof. intros H. unfold bind. now rewrite H. Qed.

Lemma bind_inv {A B} (m : M A) (k : A -> M B) w r :
  bind m k w = Some r -> exists a w', m w = Some (a, w') /\ k a w' = Some r.
Proof.
  unfold bind. destruct (m w) as [[a w'] | ] eqn:E; [ | discriminate].
  intros H. eauto.
Qed.

Lemma setCalls_setCalls w t t' : setCalls (setCalls w t) t' = setCalls w t'.
Proof. reflexivity. Qed.

Lemma setCalls_id w : setCalls w (calls w) = w.
Proof. now destruct w. Qed.

(** The calls [launch] makes: one worker per index, in order. *)
Lemma launch_calls (indices : list Z) (w : World) :
  launch indices w = Some (tt, setCalls w (calls w ++ map GoWorker indices)).
Proof.
  revert w. induction indices as [ | i rest IH]; intros w.
  - simpl. unfold ret. now rewrite app_nil_r, setCalls_id.
  - simpl. unfold bind, emit. rewrite IH. simpl.
    now rewrite <- app_assoc.
Qed.

Lemma Start_calls (numThreads : Z) (w : World) :
  Start numThreads w
  = Some (tt, setCalls w (calls w ++ map GoWorker (seqZ 0 numThreads) ++ [QueueShutDown])).
Proof.
  unfold Start, bind. rewrite launch_calls. unfold emit. simpl.
  now rewrite <- app_assoc.
Qed.

Lemma processNextWorkItemWith_run process (w : World) key rest r w1 :
  queued w = key :: rest ->
  process key (setQueued w rest) = Some (r, w1) ->
  processNextWorkItemWith process w
  = Some (true, setCalls w1 (calls w1 ++ afterProcess key r)).
Proof.
  intros Hq Hp. unfold processNextWorkItemWith, bind at 1, queueGet.
  rewrite Hq. simpl. unfold bind at 1. rewrite Hp.
  destruct r as [requeue [err | ]]; unfold afterProcess; simpl.
  - unfold bind, emit, ret. simpl. now rewrite <- !app_assoc.
  - destruct requeue; unfold bind, emit, ret; simpl; now rewrite <- !app_assoc.
Qed.

Lemma processNextWorkItemWith_quit process (w : World) :
  queued w = [] -> shuttingDown w = true ->
  processNextWorkItemWith process w = Some (false, w).
Proof.
  intros Hq Hs. unfold processNextWorkItemWith, bind, queueGet.
  now rewrite Hq, Hs.
Qed.

End Running.

(* ===================================================================== *)
(** ** One pass of [process] on a cached object *)
(* ===================================================================== *)

Section Pass.
Context {ext : Externals}.

Lemma readLabels_run (w : World) l L :
  labelsAt w l = Some L -> readLabels l w = Some (L, w).
Proof.
  destruct l as [m | ]; simpl.
  - unfold bind, loadMap, ret. destruct (labelMaps w !! m); [ | discriminate].
    now intros [= <-].
  - now intros [= <-].
Qed.

Lemma lookup_snoc_old {A} (l : list A) (x : A) i y :
  l !! i = Some y -> (l ++ [x]) !! i = Some y.
Proof. intros H. now apply lookup_app_l_Some. Qed.

Lemma lookup_snoc_new {A} (l : list A) (x : A) :
  (l ++ [x]) !! length l = Some x.
Proof. now rewrite list_lookup_middle. Qed.

Lemma insert_snoc {A} (l : list A) (x y : A) :
  <[length l := y]> (l ++ [x]) = l ++ [y].
Proof.
  rewrite insert_app_r_alt by lia. now rewrite Nat.sub_diag.
Qed.

(** [DeepCopy] then [reconcile]: the copy is a new struct with a new label
    map, and the stamp lands in that new map. *)
Lemma DeepCopy_then_reconcile c (w : World) p s L :
  shards w !! p = Some s ->
  labelsAt w (Labels s) = Some L ->
  (let* obj := DeepCopy p in
   let* rerr := reconcile c obj in
   ret (obj, rerr)) w
  = Some ((length (shards w), None), reconciledWorld w s L).
Proof.
  intros Hs HL. unfold DeepCopy, reconcile, bind, loadShard. rewrite Hs.
  unfold labelsAt in HL. destruct (Labels s) as [m | ] eqn:El.
  - unfold loadMap, makeMap, newShard, ret, mapAssign, storeShard.
    destruct (labelMaps w !! m) as [cnt | ] eqn:Em; [ | discriminate].
    injection HL as <-. simpl.
    rewrite lookup_snoc_new. simpl.
    rewrite lookup_snoc_new. simpl.
    rewrite insert_snoc.
    unfold reconciledWorld, copyOf, stampedLabels, setLabelMaps, setShards. simpl.
    reflexivity.
  - injection HL as <-.
    unfold makeMap, newShard, ret, mapAssign, storeShard. simpl.
    rewrite lookup_snoc_new. simpl.
    rewrite lookup_snoc_new. simpl.
    rewrite !insert_snoc.
    unfold reconciledWorld, copyOf, stampedLabels, setLabelMaps, setShards, withLabels. simpl.
    rewrite lookup_snoc_new. simpl. rewrite insert_snoc.
    reflexivity.
Qed.

Lemma bind2_run {A B C} (m : M A) (k : A -> M B) (h : A -> B -> M C) w a b w' :
  (let* x := m in let* y := k x in ret (x, y)) w = Some ((a, b), w') ->
  (let* x := m in let* y := k x in h x y) w = h a b w'.
Proof.
  unfold bind, ret. destruct (m w) as [[x w0] | ]; [ | discriminate].
  destruct (k x w0) as [[y w1] | ]; [ | discriminate].
  now intros [= -> -> ->].
Qed.

(** A pass on a well-formed key whose object is cached: the original is
    left alone, the copy is stamped, and the label group is patched when
    it moved. *)
Lemma process_found c key name (w : World) p s L :
  SplitMetaNamespaceKey key = inl (EmptyString, name) ->
  clusterWorkspaceShardLister c key = inl p ->
  shards w !! p = Some s ->
  labelsAt w (Labels s) = Some L ->
  process c key w
  = Some (if labelsChanged s L
          then ((true, kcpClient c (labelPatch s L)),
                setCalls (reconciledWorld w s L)
                         (calls w ++ [ClientPatch (labelPatch s L)]))
          else ((false, None), reconciledWorld w s L)).
Proof.
  intros Hkey Hget Hs HL. unfold process, processWith.
  rewrite Hkey, Hget. simpl.
  rewrite (bind2_run _ _ _ _ _ _ _ (DeepCopy_then_reconcile c w p s L Hs HL)).
  unfold bind at 1, loadShard at 1.
  assert (Hprev : shards (reconciledWorld w s L) !! p = Some s)
    by (simpl; now apply lookup_snoc_old).
  rewrite Hprev.
  unfold bind at 1, loadShard at 1.
  assert (Hcur : shards (reconciledWorld w s L) !! length (shards w) = Some (copyOf w s))
    by (simpl; apply lookup_snoc_new).
  rewrite Hcur.
  replace (Status (copyOf w s)) with (Status s) by reflexivity.
  rewrite statusDeepEqual_refl. cbn [negb].
  assert (HprevL : readLabels (Labels s) (reconciledWorld w s L) = Some (L, reconciledWorld w s L)).
  { apply readLabels_run. unfold labelsAt in *. destruct (Labels s) as [m | ]; [ | exact HL].
    simpl. destruct (labelMaps w !! m) as [cnt | ] eqn:Em; [ | discriminate].
    now rewrite (lookup_snoc_old _ _ _ _ Em). }
  unfold bind at 1. rewrite HprevL.
  assert (HcurL : readLabels (Labels (copyOf w s)) (reconciledWorld w s L)
                  = Some (Some (stampedLabels s L), reconciledWorld w s L)).
  { apply readLabels_run. simpl. now rewrite lookup_snoc_new. }
  unfold bind at 1. rewrite HcurL.
  fold (labelsChanged s L).
  destruct (labelsChanged s L); [ | reflexivity].
  unfold Patch, bind, emit, ret. simpl.
  fold (labelPatch s L).
  destruct (kcpClient c (labelPatch s L)); reflexivity.
Qed.

End Pass.

(* ===================================================================== *)
(** ** What a merge patch of two marshalled shards contains *)
(* ===================================================================== *)

Section PatchContent.
Context {ext : Externals}.

Lemma diffValue_same_string (s : string) : diffValue (JString s) (JString s) = None.
Proof. simpl. now rewrite String.eqb_refl. Qed.

(** The identity and the version are written with the same value on both
    sides of the diff, so the diff of the two metadata objects has neither. *)
Lemma metadata_diff_drops uid rv (j1 j2 : list (string * json)) field :
  field = "uid" \/ field = "resourceVersion" ->
  (j1 = [] \/ exists v, j1 = [("labels", v)]) ->
  (j2 = [] \/ exists v, j2 = [("labels", v)]) ->
  let old := omitempty "uid" uid ++ omitempty "resourceVersion" rv
             ++ [("creationTimestamp", JNull)] ++ j1 in
  let new := omitempty "uid" uid ++ omitempty "resourceVersion" rv
             ++ [("creationTimestamp", JNull)] ++ j2 in
  jlookup field (getDiff old new ++ deletedKeys old new) = None.
Proof.
  intros Hf H1 H2. unfold omitempty.
  destruct (String.eqb uid EmptyString); destruct (String.eqb rv EmptyString);
    destruct H1 as [-> | [v1 ->]]; destruct H2 as [-> | [v2 ->]];
    destruct Hf as [-> | ->];
    cbn -[diffValue]; rewrite ?diffValue_same_string;
    cbn -[diffValue]; try reflexivity;
    destruct (diffValue v1 v2); reflexivity.
Qed.

(** On two objects [diffValue] is [getDiff] followed by the removed keys. *)
Lemma diffValue_object (a b : list (string * json)) :
  diffValue (JObject a) (JObject b)
  = match getDiff a b ++ deletedKeys a b with
    | [] => None
    | dst => Some (JObject dst)
    end.
Proof.
  cbn [diffValue sameType negb].
  match goal with
  | |- context [?inner b ++ deletedKeys a b] =>
      assert (E : forall l, inner l = getDiff a l)
  end.
  { induction l as [ | [key y] l IH]; [reflexivity | ].
    simpl. destruct (jlookup key a) as [x | ]; [ | now rewrite IH].
    destruct (diffValue x y); now rewrite IH. }
  rewrite !E. now destruct (getDiff a b ++ deletedKeys a b).
Qed.

Lemma omitemptyMap_shape name l :
  omitemptyMap name l = [] \/ exists v, omitemptyMap name l = [(name, v)].
Proof.
  unfold omitemptyMap. destruct (map_to_list (default ∅ l)); [now left | right; eauto].
Qed.

(** Neither [metadata.uid] nor [metadata.resourceVersion] survives in the
    merge patch of two documents marshalled with the same identity and
    version. *)
Lemma merge_patch_drops_preconditions uid rv L1 L2 st1 st2 field :
  field = "uid" \/ field = "resourceVersion" ->
  metadataField field
    (CreateMergePatch (Marshal uid rv L1 st1) (Marshal uid rv L2 st2)) = None.
Proof.
  intros Hf. unfold CreateMergePatch, Marshal, metadataField.
  pose proof (metadata_diff_drops uid rv _ _ field Hf
                (omitemptyMap_shape "labels" L1) (omitemptyMap_shape "labels" L2)) as Hd.
  cbn zeta in Hd. fold (marshalObjectMeta uid rv L1) in Hd.
  fold (marshalObjectMeta uid rv L2) in Hd.
  cbn -[diffValue marshalObjectMeta]. rewrite diffValue_object.
  destruct (getDiff (marshalObjectMeta uid rv L1) (marshalObjectMeta uid rv L2)
            ++ deletedKeys (marshalObjectMeta uid rv L1) (marshalObjectMeta uid rv L2))
    as [ | d dst] eqn:Ed.
  - destruct (diffValue marshalZeroSpec marshalZeroSpec);
      destruct (diffValue (marshalStatus st1) (marshalStatus st2)); reflexivity.
  - cbn. exact Hd.
Qed.

End PatchContent.

(* ===================================================================== *)
(** ** Properties of the controller *)
(* ===================================================================== *)

Section Properties.
Context {ext : Externals}.

Lemma process_malformed c key (w : World) :
  malformedKey key = true -> process c key w = Some ((false, None), w).
Proof.
  unfold malformedKey, process, processWith.
  destruct (SplitMetaNamespaceKey key) as [[namespace name] | err]; [ | reflexivity].
  intros ->. reflexivity.
Qed.

Lemma process_lister_error c key name err (w : World) :
  SplitMetaNamespaceKey key = inl (EmptyString, name) ->
  clusterWorkspaceShardLister c key = inr err ->
  process c key w
  = Some (if IsNotFound err then (false, None) else (true, Some err), w).
Proof.
  intros Hkey Hget. unfold process, processWith. rewrite Hkey, Hget. simpl.
  now destruct (IsNotFound err).
Qed.

(** [reconcile] on any valid pointer: the label map is created when nil,
    the stamp is written, and the result is nil. *)
Lemma reconcile_run c (w : World) q s L :
  shards w !! q = Some s ->
  labelsAt w (Labels s) = Some L ->
  reconcile c q w
  = Some (None,
          match Labels s with
          | Some m => setLabelMaps w (<[m := stampedLabels s L]> (labelMaps w))
          | None => setLabelMaps
                      (setShards w (<[q := withLabels s (Some (length (labelMaps w)))]> (shards w)))
                      (labelMaps w ++ [stampedLabels s L])
          end).
Proof.
  intros Hs HL. unfold reconcile, bind, loadShard. rewrite Hs.
  unfold labelsAt in HL. destruct (Labels s) as [m | ] eqn:El.
  - destruct (labelMaps w !! m) as [cnt | ] eqn:Em; [ | discriminate].
    injection HL as <-. unfold ret, mapAssign. rewrite Em. reflexivity.
  - injection HL as <-. unfold makeMap, storeShard, ret, mapAssign. simpl.
    rewrite Hs. simpl. rewrite lookup_snoc_new. simpl. rewrite insert_snoc.
    reflexivity.
Qed.

(** If a pass returns at all on a cached object, the pointers it followed
    were valid. *)
Lemma process_followed c key name p (w : World) r :
  SplitMetaNamespaceKey key = inl (EmptyString, name) ->
  clusterWorkspaceShardLister c key = inl p ->
  process c key w = Some r ->
  exists s L, shards w !! p = Some s /\ labelsAt w (Labels s) = Some L.
Proof.
  intros Hkey Hget. unfold process, processWith. rewrite Hkey, Hget. simpl.
  intros H. apply bind_inv in H as (q & w1 & Hcopy & _).
  unfold DeepCopy in Hcopy. apply bind_inv in Hcopy as (s & w0 & Hload & Hrest).
  unfold loadShard in Hload. destruct (shards w !! p) as [s0 | ] eqn:Es; [ | discriminate].
  injection Hload as <- <-.
  apply bind_inv in Hrest as (l & w2 & Hl & _).
  exists s0. unfold labelsAt. destruct (Labels s0) as [m | ].
  - apply bind_inv in Hl as (cnt & w3 & Hm & _). unfold loadMap in Hm.
    destruct (labelMaps w !! m) as [cnt0 | ]; [eauto | discriminate].
  - eauto.
Qed.

(** The three ways a pass can go. *)
Lemma process_cases c key (w : World) res w' :
  process c key w = Some (res, w') ->
  (malformedKey key = true /\ res = (false, None) /\ w' = w)
  \/ (exists name err,
        SplitMetaNamespaceKey key = inl (EmptyString, name)
        /\ clusterWorkspaceShardLister c key = inr err
        /\ res = (if IsNotFound err then (false, None) else (true, Some err))
        /\ w' = w)
  \/ (exists name p s L,
        SplitMetaNamespaceKey key = inl (EmptyString, name)
        /\ clusterWorkspaceShardLister c key = inl p
        /\ shards w !! p = Some s
        /\ labelsAt w (Labels s) = Some L
        /\ (res, w') = (if labelsChanged s L
                        then ((true, kcpClient c (labelPatch s L)),
                              setCalls (reconciledWorld w s L)
                                       (calls w ++ [ClientPatch (labelPatch s L)]))
                        else ((false, None), reconciledWorld w s L))).
Proof.
  intros H.
  destruct (malformedKey key) eqn:Emal.
  - left. rewrite (process_malformed c key w Emal) in H. injection H as <- <-. auto.
  - right. unfold malformedKey in Emal.
    destruct (SplitMetaNamespaceKey key) as [[namespace name] | ] eqn:Ekey; [ | discriminate].
    apply Bool.negb_false_iff, String.eqb_eq in Emal. subst namespace.
    destruct (clusterWorkspaceShardLister c key) as [p | err] eqn:Eget.
    + right. destruct (process_followed c key name p w _ Ekey Eget H) as (s & L & Hs & HL).
      rewrite (process_found c key name w p s L Ekey Eget Hs HL) in H.
      injection H as H. exists name, p, s, L. auto.
    + left. rewrite (process_lister_error c key name err w Ekey Eget) in H.
      injection H as <- <-. exists name, err. auto.
Qed.

End Properties.

(* ===================================================================== *)
(** ** The statements about [process] and [processNextWorkItem] *)
(* ===================================================================== *)

Section Statements.
Context {ext : Externals}.

(** Whatever patch a pass submits, it names neither the identity nor the
    version of the object it was computed from. *)
Lemma process_patch_without_preconditions c key (w : World) res w' call :
  process c key w = Some (res, w') ->
  calls w' = calls w ++ [ClientPatch call] ->
  metadataField "uid" (patchData call) = None
  /\ metadataField "resourceVersion" (patchData call) = None.
Proof.
  intros H Hcalls.
  destruct (process_cases c key w res w' H)
    as [(_ & _ & ->) | [(name & err & _ & _ & _ & ->) | (name & p & s & L & _ & _ & _ & _ & E)]].
  - rewrite <- (app_nil_r (calls w)) in Hcalls at 1.
    apply app_inv_head in Hcalls. discriminate.
  - rewrite <- (app_nil_r (calls w)) in Hcalls at 1.
    apply app_inv_head in Hcalls. discriminate.
  - destruct (labelsChanged s L); injection E as -> ->.
    + simpl in Hcalls. apply app_inv_head in Hcalls. injection Hcalls as <-.
      split; apply merge_patch_drops_preconditions; auto.
    + simpl in Hcalls. rewrite <- (app_nil_r (calls w)) in Hcalls at 1.
      apply app_inv_head in Hcalls. discriminate.
Qed.

(** The status patch of any reconcile function has the same defect. *)
Lemma statusPatch_without_preconditions prev cur :
  metadataField "uid" (patchData (statusPatch prev cur)) = None
  /\ metadataField "resourceVersion" (patchData (statusPatch prev cur)) = None.
Proof. split; apply merge_patch_drops_preconditions; auto. Qed.

(** The status branch as it is written, for any reconcile function.  When
    the status group of the reconciled copy differs from the original's,
    the pass submits one patch, scoped to the [status] sub-resource, and
    returns [requeue = true] together with the answer of that [Patch]
    call.  The labels group is not looked at in that pass: nothing else is
    called, and the label maps need not even be readable.  The [reconcile]
    of this controller never changes the status, so [process] itself does
    not take this branch. *)
Lemma status_change_commits_status_only
    (reconcile : loc -> M (option error)) c key name (w : World) p q w1 w2 prev cur :
  SplitMetaNamespaceKey key = inl (EmptyString, name) ->
  clusterWorkspaceShardLister c key = inl p ->
  DeepCopy p w = Some (q, w1) ->
  reconcile q w1 = Some (None, w2) ->
  shards w2 !! p = Some prev ->
  shards w2 !! q = Some cur ->
  statusDeepEqual (Status prev) (Status cur) = false ->
  processWith reconcile c key w
  = Some ((true, kcpClient c (statusPatch prev cur)),
          setCalls w2 (calls w2 ++ [ClientPatch (statusPatch prev cur)]))
  /\ patchSubresources (statusPatch prev cur) = ["status"]
  /\ (kcpClient c (statusPatch prev cur) = None ->
      processWith reconcile c key w
      = Some ((true, None),
              setCalls w2 (calls w2 ++ [ClientPatch (statusPatch prev cur)]))).
Proof.
  intros Hkey Hget Hcopy Hrec Hprev Hcur Hne.
  assert (E : processWith reconcile c key w
              = Some ((true, kcpClient c (statusPatch prev cur)),
                      setCalls w2 (calls w2 ++ [ClientPatch (statusPatch prev cur)]))).
  { unfold processWith. rewrite Hkey, Hget. simpl.
    rewrite (bind_Some _ _ _ _ _ Hcopy), (bind_Some _ _ _ _ _ Hrec).
    unfold bind at 1, loadShard at 1. rewrite Hprev.
    unfold bind at 1, loadShard at 1. rewrite Hcur.
    rewrite Hne. cbn [negb].
    unfold Patch, bind, emit, ret. simpl. fold (statusPatch prev cur).
    now destruct (kcpClient c (statusPatch prev cur)). }
  split; [exact E | split; [reflexivity | ]].
  intros Hok. now rewrite E, Hok.
Qed.

(** The test of the label group and the identity label. *)
Lemma labels_unchanged_iff (s : ClusterWorkspaceShard) L :
  labelsDeepEqual L (Some (stampedLabels s L)) = true
  <-> default ∅ L !! shardLabel = Some (Name s).
Proof.
  unfold labelsDeepEqual, stampedLabels. rewrite bool_decide_eq_true. simpl.
  split.
  - intros E. rewrite E. apply lookup_insert_eq.
  - intros E. symmetry. now apply insert_id.
Qed.

Lemma labelsChanged_false (w : World) s L :
  labelsAt w (Labels s) = Some L ->
  default ∅ L !! shardLabel = Some (Name s) ->
  labelsChanged s L = false.
Proof.
  intros HL Hl. unfold labelsChanged.
  rewrite (proj2 (labels_unchanged_iff s L) Hl).
  destruct (Labels s); [reflexivity | ].
  injection HL as <-. simpl in Hl. rewrite lookup_empty in Hl. discriminate.
Qed.

(** The cached object and its label map are still readable, with the same
    content, in the world a pass leaves. *)
Lemma found_again (w : World) p s L :
  shards w !! p = Some s ->
  labelsAt w (Labels s) = Some L ->
  shards (reconciledWorld w s L) !! p = Some s
  /\ labelsAt (reconciledWorld w s L) (Labels s) = Some L.
Proof.
  intros Hs HL. split.
  - simpl. now apply lookup_snoc_old.
  - unfold labelsAt in *. destruct (Labels s) as [m | ]; [ | exact HL].
    simpl. destruct (labelMaps w !! m) as [cnt | ] eqn:Em; [ | discriminate].
    now rewrite (lookup_snoc_old _ _ _ _ Em).
Qed.

(** C3.  A shard that already carries its identity label is left as it is
    by [reconcile] (labels and status compare equal), [process] makes no
    [Patch] call and returns [(false, nil)], and so does a second pass on
    the same object.  A label map that went through one stamp carries the
    label. *)
Theorem labelled_shard_is_not_patched c key name (w : World) p s L :
  SplitMetaNamespaceKey key = inl (EmptyString, name) ->
  clusterWorkspaceShardLister c key = inl p ->
  shards w !! p = Some s ->
  labelsAt w (Labels s) = Some L ->
  default ∅ L !! shardLabel = Some (Name s) ->
  (labelsDeepEqual L (Some (stampedLabels s L)) = true
   /\ statusDeepEqual (Status s) (Status (copyOf w s)) = true)
  /\ (exists w',
        process c key w = Some ((false, None), w')
        /\ calls w' = calls w
        /\ exists w'',
             process c key w' = Some ((false, None), w'')
             /\ calls w'' = calls w)
  /\ (forall L0, stampedLabels s L0 !! shardLabel = Some (Name s)).
Proof.
  intros Hkey Hget Hs HL Hl.
  split; [split | split].
  - now apply labels_unchanged_iff.
  - apply statusDeepEqual_refl.
  - pose proof (labelsChanged_false w s L HL Hl) as Hno.
    exists (reconciledWorld w s L).
    rewrite (process_found c key name w p s L Hkey Hget Hs HL), Hno.
    split; [reflexivity | split; [reflexivity | ]].
    destruct (found_again w p s L Hs HL) as [Hs' HL'].
    exists (reconciledWorld (reconciledWorld w s L) s L).
    rewrite (process_found c key name _ p s L Hkey Hget Hs' HL'), Hno.
    split; reflexivity.
  - intros L0. apply lookup_insert_eq.
Qed.

(** C4.  The dispatch of [processNextWorkItem] on the result of [process]:
    an error is reported and the key re-added with rate limiting, without
    [Forget]; an error-free requeue re-adds the key with [Add]; otherwise
    the key is forgotten.  [Done] closes every case and the worker goes
    on ([true]). *)
Theorem processNextWorkItem_dispatch c (w : World) key rest requeue err w1 :
  queued w = key :: rest ->
  process c key (setQueued w rest) = Some ((requeue, err), w1) ->
  processNextWorkItem c w
  = Some (true,
          setCalls w1
            (calls w1 ++
             match err with
             | Some e =>
                 [HandleError (Errorf_w "%q controller failed to sync %q, err: %w"
                                 [ArgString ControllerName; ArgString key] e);
                  QueueAddRateLimited key;
                  QueueDone key]
             | None =>
                 if requeue then [QueueAdd key; QueueForget key; QueueDone key]
                 else [QueueForget key; QueueDone key]
             end)).
Proof.
  intros Hq Hp. unfold processNextWorkItem.
  now rewrite (processNextWorkItemWith_run _ w key rest _ w1 Hq Hp).
Qed.

(** C5.  A malformed key is dropped: [enqueue] reports a failed key
    extraction and adds nothing to the queue; [process] returns
    [(false, nil)] on a key that does not split or names a namespace,
    touching nothing; [processNextWorkItem] then forgets the key and
    neither [Add] nor [AddRateLimited] is called. *)
Theorem malformed_key_is_dropped c :
  (forall obj err (w : World),
      MetaClusterNamespaceKeyFunc obj = inr err ->
      enqueue obj w = Some (tt, setCalls w (calls w ++ [HandleError err])))
  /\ (forall key (w : World),
        malformedKey key = true ->
        process c key w = Some ((false, None), w))
  /\ (forall key rest (w : World),
        malformedKey key = true ->
        queued w = key :: rest ->
        processNextWorkItem c w
        = Some (true, setCalls (setQueued w rest)
                        (calls w ++ [QueueForget key; QueueDone key]))).
Proof.
  split; [ | split].
  - intros obj err w H. unfold enqueue. now rewrite H.
  - intros key w H. now apply process_malformed.
  - intros key rest w H Hq. unfold processNextWorkItem.
    now rewrite (processNextWorkItemWith_run _ w key rest _ _ Hq
                   (process_malformed c key (setQueued w rest) H)).
Qed.

(** C6.  When the lister has no object for a well-formed key, a not-found
    error ends the pass with [(false, nil)] and the key is forgotten; any
    other lister error is returned with [requeue = true], reported, and
    the key is re-added with rate limiting. *)
Theorem lister_error_outcome c key name err (w : World) :
  SplitMetaNamespaceKey key = inl (EmptyString, name) ->
  clusterWorkspaceShardLister c key = inr err ->
  (IsNotFound err = true ->
     process c key w = Some ((false, None), w)
     /\ forall rest, queued w = key :: rest ->
          processNextWorkItem c w
          = Some (true, setCalls (setQueued w rest)
                          (calls w ++ [QueueForget key; QueueDone key])))
  /\ (IsNotFound err = false ->
       process c key w = Some ((true, Some err), w)
       /\ forall rest, queued w = key :: rest ->
            processNextWorkItem c w
            = Some (true, setCalls (setQueued w rest)
                            (calls w ++
                             [HandleError (Errorf_w "%q controller failed to sync %q, err: %w"
                                             [ArgString ControllerName; ArgString key] err);
                              QueueAddRateLimited key;
                              QueueDone key]))).
Proof.
  intros Hkey Hget.
  split; intros Hnf; (split; [ | intros rest Hq; unfold processNextWorkItem]).
  - now rewrite (process_lister_error c key name err w Hkey Hget), Hnf.
  - pose proof (process_lister_error c key name err (setQueued w rest) Hkey Hget) as Hp.
    rewrite Hnf in Hp.
    now rewrite (processNextWorkItemWith_run _ w key rest _ _ Hq Hp).
  - now rewrite (process_lister_error c key name err w Hkey Hget), Hnf.
  - pose proof (process_lister_error c key name err (setQueued w rest) Hkey Hget) as Hp.
    rewrite Hnf in Hp.
    now rewrite (processNextWorkItemWith_run _ w key rest _ _ Hq Hp).
Qed.

End Statements.

Section MoreStatements.
Context {ext : Externals}.

Lemma omitemptyMap_no_entry name L :
  default ∅ L = ∅ -> omitemptyMap name L = [].
Proof. intros H. unfold omitemptyMap. now rewrite H, map_to_list_empty. Qed.

Lemma omitemptyMap_singleton name (k v : string) :
  omitemptyMap name (Some {[ k := v ]}) = [(name, JObject [(k, JString v)])].
Proof.
  unfold omitemptyMap.
  change (default ∅ (Some ({[ k := v ]} : gmap string string)))
    with ({[ k := v ]} : gmap string string).
  now rewrite map_to_list_singleton.
Qed.

(** The label patch of a shard without labels adds exactly the identity
    label under [metadata.labels]. *)
Lemma labelPatch_of_unlabelled (s : ClusterWorkspaceShard) L :
  default ∅ L = ∅ ->
  metadataField "labels" (patchData (labelPatch s L))
  = Some (JObject [(shardLabel, JString (Name s))]).
Proof.
  intros Hno.
  assert (Hst : stampedLabels s L = {[ shardLabel := Name s ]}).
  { unfold stampedLabels. rewrite Hno. apply insert_empty. }
  unfold labelPatch, patchData, CreateMergePatch, Marshal, metadataField.
  cbn -[diffValue marshalObjectMeta]. rewrite diffValue_object.
  unfold marshalObjectMeta. rewrite Hst, omitemptyMap_singleton.
  rewrite (omitemptyMap_no_entry "labels" L Hno).
  unfold omitempty.
  destruct (String.eqb (UID s) EmptyString); destruct (String.eqb (ResourceVersion s) EmptyString);
    cbn -[diffValue]; rewrite ?diffValue_same_string; cbn; reflexivity.
Qed.

(** C7.  On a shard without labels (a nil or empty label map) [reconcile]
    returns nil and leaves a label map, created when it was nil, whose only
    entry is the identity label with the shard's name; [process] makes one
    [Patch] call, without sub-resource, whose document sets that label
    under [metadata.labels]. *)
Theorem unlabelled_shard_gets_one_label_patch c key name (w : World) p s L :
  SplitMetaNamespaceKey key = inl (EmptyString, name) ->
  clusterWorkspaceShardLister c key = inl p ->
  shards w !! p = Some s ->
  labelsAt w (Labels s) = Some L ->
  default ∅ L = ∅ ->
  (exists w1 s1 m,
      reconcile c p w = Some (None, w1)
      /\ shards w1 !! p = Some s1
      /\ Name s1 = Name s
      /\ Labels s1 = Some m
      /\ labelMaps w1 !! m = Some {[ shardLabel := Name s ]})
  /\ (exists call w',
        process c key w = Some ((true, kcpClient c call), w')
        /\ calls w' = calls w ++ [ClientPatch call]
        /\ patchSubresources call = []
        /\ patchName call = Name s
        /\ metadataField "labels" (patchData call)
           = Some (JObject [(shardLabel, JString (Name s))])
        /\ shards w' !! length (shards w) = Some (copyOf w s)
        /\ labelsAt w' (Labels (copyOf w s)) = Some (Some {[ shardLabel := Name s ]})).
Proof.
  intros Hkey Hget Hs HL Hno.
  assert (Hst : stampedLabels s L = {[ shardLabel := Name s ]}).
  { unfold stampedLabels. rewrite Hno. apply insert_empty. }
  split.
  - rewrite (reconcile_run c w p s L Hs HL). rewrite Hst.
    unfold labelsAt in HL. destruct (Labels s) as [m | ] eqn:El.
    + destruct (labelMaps w !! m) as [cnt | ] eqn:Em; [ | discriminate].
      exists (setLabelMaps w (<[m := {[ shardLabel := Name s ]}]> (labelMaps w))), s, m.
      split; [reflexivity | ]. split; [exact Hs | ]. split; [reflexivity | ].
      split; [exact El | ]. simpl.
      apply list_lookup_insert_eq. now apply lookup_lt_Some in Em.
    + eexists _, (withLabels s (Some (length (labelMaps w)))), (length (labelMaps w)).
      split; [reflexivity | ]. simpl.
      split; [apply list_lookup_insert_eq; now apply lookup_lt_Some in Hs | ].
      split; [reflexivity | ]. split; [reflexivity | ].
      apply lookup_snoc_new.
  - assert (Hch : labelsChanged s L = true).
    { unfold labelsChanged. destruct (Labels s); [ | reflexivity]. simpl.
      apply Bool.negb_true_iff. destruct (labelsDeepEqual L (Some (stampedLabels s L))) eqn:E;
        [ | reflexivity].
      apply labels_unchanged_iff in E. rewrite Hno, lookup_empty in E. discriminate. }
    exists (labelPatch s L),
      (setCalls (reconciledWorld w s L) (calls w ++ [ClientPatch (labelPatch s L)])).
    rewrite (process_found c key name w p s L Hkey Hget Hs HL), Hch.
    split; [reflexivity | ]. split; [reflexivity | ]. split; [reflexivity | ].
    split; [reflexivity | ]. split; [now apply labelPatch_of_unlabelled | ].
    split; [simpl; apply lookup_snoc_new | ].
    simpl. rewrite lookup_snoc_new. now rewrite Hst.
Qed.

(** C8.  A pass never writes to what the store held before it: every shard
    struct and every label map of the cache keeps its content.  When the
    key is well-formed and cached at [p], the only additions are the
    working copy and its own label map, which receives the stamp, and the
    patch, if any, is the diff of the original [s] (read at [p], with its
    labels [L]) against that copy. *)
Theorem process_never_mutates_cached_object c key (w : World) res w' :
  process c key w = Some (res, w') ->
  (forall q s, shards w !! q = Some s -> shards w' !! q = Some s)
  /\ (forall m cnt, labelMaps w !! m = Some cnt -> labelMaps w' !! m = Some cnt)
  /\ (forall name p,
        SplitMetaNamespaceKey key = inl (EmptyString, name) ->
        clusterWorkspaceShardLister c key = inl p ->
        exists s L,
          shards w !! p = Some s
          /\ labelsAt w (Labels s) = Some L
          /\ shards w' !! p = Some s
          /\ labelsAt w' (Labels s) = Some L
          /\ shards w' = shards w ++ [copyOf w s]
          /\ labelMaps w' = labelMaps w ++ [stampedLabels s L]
          /\ (calls w' = calls w
              \/ calls w' = calls w ++ [ClientPatch (labelPatch s L)])).
Proof.
  intros H.
  destruct (process_cases c key w res w' H)
    as [(Hmal & _ & ->) | [(name & err & Hkey & Hget & _ & ->)
                          | (name & p & s & L & Hkey & Hget & Hs & HL & E)]].
  - split; [auto | split; [auto | ]].
    intros name p Hkey _. unfold malformedKey in Hmal. rewrite Hkey in Hmal. discriminate.
  - split; [auto | split; [auto | ]].
    intros name' p _ Hget'. rewrite Hget in Hget'. discriminate.
  - assert (Hsh : shards w' = shards w ++ [copyOf w s])
      by (destruct (labelsChanged s L); injection E as _ ->; reflexivity).
    assert (Hmp : labelMaps w' = labelMaps w ++ [stampedLabels s L])
      by (destruct (labelsChanged s L); injection E as _ ->; reflexivity).
    assert (Hcl : calls w' = calls w \/ calls w' = calls w ++ [ClientPatch (labelPatch s L)])
      by (destruct (labelsChanged s L); injection E as _ ->; [right | left]; reflexivity).
    split; [ | split].
    + intros q s0 Hq. rewrite Hsh. now apply lookup_snoc_old.
    + intros m cnt Hm. rewrite Hmp. now apply lookup_snoc_old.
    + intros name' p' _ Hget'. rewrite Hget in Hget'. injection Hget' as <-.
      exists s, L. split; [exact Hs | ]. split; [exact HL | ].
      split; [rewrite Hsh; now apply lookup_snoc_old | ].
      split; [ | auto].
      unfold labelsAt in *. destruct (Labels s) as [m | ]; [ | exact HL].
      destruct (labelMaps w !! m) as [cnt | ] eqn:Em; [ | discriminate].
      rewrite Hmp. now rewrite (lookup_snoc_old _ _ _ _ Em).
Qed.

(** C9, as the code has it.  [Validate] returns an error exactly when the
    heartbeat threshold is not positive.  [Start] checks nothing: it
    launches one worker for each index below [numThreads], so as many
    workers as [numThreads] when that is positive and none otherwise, and
    then runs to its shutdown. *)
Theorem Validate_threshold_and_Start_workers :
  (forall o, Heartbeat.Validate o <> None <-> (Heartbeat.HeartbeatThreshold o <= 0)%Z)
  /\ (forall numThreads (w : World),
        Start numThreads w
        = Some (tt, setCalls w (calls w ++ map GoWorker (seqZ 0 numThreads)
                                  ++ [QueueShutDown]))
        /\ length (map GoWorker (seqZ 0 numThreads)) = Z.to_nat numThreads).
Proof.
  split; [apply Validate_error_iff | ].
  intros numThreads w. split; [apply Start_calls | ].
  now rewrite length_map, length_seqZ.
Qed.

(** C10.  After an error-free pass that asks for a requeue the key is
    re-added and then forgotten; an error-free pass without requeue forgets
    it as well: [Forget] runs on every error-free pass. *)
Theorem requeue_is_followed_by_forget c (w : World) key rest requeue w1 :
  queued w = key :: rest ->
  process c key (setQueued w rest) = Some ((requeue, None), w1) ->
  exists before,
    processNextWorkItem c w
    = Some (true, setCalls w1 (calls w1 ++ before ++ [QueueForget key; QueueDone key]))
    /\ before = (if requeue then [QueueAdd key] else []).
Proof.
  intros Hq Hp. exists (if requeue then [QueueAdd key] else []).
  split; [ | reflexivity]. unfold processNextWorkItem.
  rewrite (processNextWorkItemWith_run _ w key rest _ w1 Hq Hp).
  now destruct requeue.
Qed.

End MoreStatements.

(* ===================================================================== *)
(** ** The statements at concrete inputs *)
(* ===================================================================== *)

(** C1 fails on the code.  For the unlabelled shard [Sample.bare] (UID
    [uid-1], resource version [7]) the pass submits one patch, whose
    document holds the new label under [metadata.labels] and nothing else:
    the identity and the version were marshalled with equal values on both
    sides of the diff, so the merge patch does not carry them. *)
Theorem submitted_patch_lacks_preconditions :
  process Sample.accepting "root|shard-1" Sample.bareWorld
  = Some ((true, None),
          setCalls (reconciledWorld Sample.bareWorld Sample.bare None)
                   [ClientPatch (labelPatch Sample.bare None)])
  /\ patchData (labelPatch Sample.bare None)
     = JObject [("metadata",
                 JObject [("labels",
                           JObject [("tenancy.kcp.dev/shard", JString "shard-1")])])]
  /\ ~ carriesPreconditions "uid-1" "7" (patchData (labelPatch Sample.bare None)).
Proof.
  split; [vm_compute; reflexivity | ].
  split; [vm_compute; reflexivity | ].
  intros [Huid _]. vm_compute in Huid. discriminate.
Qed.

(** Had the original side of the diff been marshalled without identity and
    version, the patch would carry both. *)
Example preconditions_survive_a_one_sided_diff :
  carriesPreconditions "uid-1" "7"
    (CreateMergePatch
       (Marshal (ext := Sample.externals) EmptyString EmptyString None [])
       (Marshal (ext := Sample.externals) "uid-1" "7"
          (Some {[ shardLabel := "shard-1" ]}) [])).
Proof. split; vm_compute; reflexivity. Qed.

(** With a reconcile function that writes the status and a client that
    rejects the patch, the pass submits one status patch and returns the
    client's error. *)
Lemma rejected_status_patch_returns_the_error :
  statusDeepEqual (Status Sample.bare) (Status Sample.readyCopy) = false
  /\ processWith Sample.markReady Sample.rejecting "root|shard-1" Sample.bareWorld
     = Some ((true, Some Sample.conflict),
             setCalls Sample.readyWorld
                      [ClientPatch (statusPatch Sample.bare Sample.readyCopy)])
  /\ (true, Some Sample.conflict) <> (true, @None error).
Proof.
  split; [vm_compute; reflexivity | ].
  split; [vm_compute; reflexivity | discriminate].
Qed.

Lemma status_change_commits_status_only_witness :
  processWith Sample.markReady Sample.accepting "root|shard-1" Sample.bareWorld
  = Some ((true, kcpClient Sample.accepting (statusPatch Sample.bare Sample.readyCopy)),
          setCalls Sample.readyWorld
                   (calls Sample.readyWorld
                    ++ [ClientPatch (statusPatch Sample.bare Sample.readyCopy)]))
  /\ patchSubresources (statusPatch Sample.bare Sample.readyCopy) = ["status"]
  /\ (kcpClient Sample.accepting (statusPatch Sample.bare Sample.readyCopy) = None ->
      processWith Sample.markReady Sample.accepting "root|shard-1" Sample.bareWorld
      = Some ((true, None),
              setCalls Sample.readyWorld
                       (calls Sample.readyWorld
                        ++ [ClientPatch (statusPatch Sample.bare Sample.readyCopy)]))).
Proof.
  apply (status_change_commits_status_only Sample.markReady Sample.accepting
           "root|shard-1" "root|shard-1" Sample.bareWorld 0 1
           Sample.copiedWorld Sample.readyWorld Sample.bare Sample.readyCopy);
    vm_compute; reflexivity.
Defined.

Lemma labelled_shard_is_not_patched_witness :
  default ∅ (Some ({[ shardLabel := "shard-1" ]} : gmap string string)) !! shardLabel
  = Some (Name Sample.stamped)
  /\ exists w',
       process Sample.accepting "root|shard-1" Sample.stampedWorld = Some ((false, None), w')
       /\ calls w' = calls Sample.stampedWorld.
Proof.
  split; [vm_compute; reflexivity | ].
  destruct (labelled_shard_is_not_patched Sample.accepting "root|shard-1" "root|shard-1"
              Sample.stampedWorld 0 Sample.stamped (Some {[ shardLabel := "shard-1" ]}))
    as (_ & (w' & Hp & Hc & _) & _); try (vm_compute; reflexivity).
  exists w'. split; assumption.
Defined.

Lemma processNextWorkItem_dispatch_witness :
  process Sample.rejecting "root|shard-1" Sample.dequeuedWorld
  = Some ((true, Some Sample.conflict),
          setCalls (reconciledWorld Sample.dequeuedWorld Sample.bare None)
                   [ClientPatch (labelPatch Sample.bare None)])
  /\ processNextWorkItem Sample.rejecting Sample.bareWorld
     = Some (true,
             setCalls (reconciledWorld Sample.dequeuedWorld Sample.bare None)
               ([ClientPatch (labelPatch Sample.bare None)] ++
                [HandleError (Errorf_w "%q controller failed to sync %q, err: %w"
                                [ArgString ControllerName; ArgString "root|shard-1"]
                                Sample.conflict);
                 QueueAddRateLimited "root|shard-1";
                 QueueDone "root|shard-1"])).
Proof.
  split; [vm_compute; reflexivity | ].
  apply (processNextWorkItem_dispatch Sample.rejecting Sample.bareWorld "root|shard-1" []
           true (Some Sample.conflict)
           (setCalls (reconciledWorld Sample.dequeuedWorld Sample.bare None)
                     [ClientPatch (labelPatch Sample.bare None)]));
    vm_compute; reflexivity.
Defined.

Lemma malformed_key_is_dropped_witness :
  enqueue (ext := Sample.externals) Sample.NoMeta Sample.emptyWorld
  = Some (tt, setCalls Sample.emptyWorld
                [HandleError (Errorf "object has no meta: %v"
                   [ArgString "object does not implement the Object interfaces"])])
  /\ process Sample.accepting "a/b/c" Sample.bareWorld = Some ((false, None), Sample.bareWorld)
  /\ process Sample.accepting "ns/shard-1" Sample.bareWorld = Some ((false, None), Sample.bareWorld)
  /\ processNextWorkItem Sample.accepting (setQueued Sample.emptyWorld ["ns/shard-1"])
     = Some (true, setCalls Sample.emptyWorld
                     [QueueForget "ns/shard-1"; QueueDone "ns/shard-1"]).
Proof.
  destruct (malformed_key_is_dropped (ext := Sample.externals) Sample.accepting) as (Henq & Hproc & Hnext).
  split; [exact (Henq Sample.NoMeta _ Sample.emptyWorld eq_refl) | ].
  split; [exact (Hproc "a/b/c" Sample.bareWorld eq_refl) | ].
  split; [exact (Hproc "ns/shard-1" Sample.bareWorld eq_refl) | ].
  exact (Hnext "ns/shard-1" [] (setQueued Sample.emptyWorld ["ns/shard-1"]) eq_refl eq_refl).
Defined.

Lemma lister_error_outcome_witness :
  (process Sample.accepting "root|gone" Sample.bareWorld
   = Some ((false, None), Sample.bareWorld))
  /\ (process Sample.failingLister "root|shard-1" Sample.bareWorld
      = Some ((true, Some Sample.internal), Sample.bareWorld))
  /\ processNextWorkItem Sample.failingLister Sample.bareWorld
     = Some (true,
             setCalls Sample.dequeuedWorld
               [HandleError (Errorf_w "%q controller failed to sync %q, err: %w"
                               [ArgString ControllerName; ArgString "root|shard-1"]
                               Sample.internal);
                QueueAddRateLimited "root|shard-1";
                QueueDone "root|shard-1"]).
Proof.
  split; [ | split].
  - apply (lister_error_outcome Sample.accepting "root|gone" "root|gone" Sample.notFound
             Sample.bareWorld); reflexivity.
  - apply (lister_error_outcome Sample.failingLister "root|shard-1" "root|shard-1"
             Sample.internal Sample.bareWorld); reflexivity.
  - apply (lister_error_outcome Sample.failingLister "root|shard-1" "root|shard-1"
             Sample.internal Sample.bareWorld); reflexivity.
Defined.

Lemma unlabelled_shard_gets_one_label_patch_witness :
  exists call w',
    process Sample.accepting "root|shard-1" Sample.bareWorld = Some ((true, None), w')
    /\ calls w' = [ClientPatch call]
    /\ patchSubresources call = []
    /\ metadataField "labels" (patchData call)
       = Some (JObject [(shardLabel, JString "shard-1")]).
Proof.
  destruct (unlabelled_shard_gets_one_label_patch Sample.accepting "root|shard-1"
              "root|shard-1" Sample.bareWorld 0 Sample.bare None)
    as (_ & call & w' & Hp & Hc & Hsub & _ & Hlab & _); try reflexivity.
  exists call, w'. auto.
Defined.

Lemma process_never_mutates_cached_object_witness :
  shards (reconciledWorld Sample.stampedWorld Sample.stamped
            (Some {[ shardLabel := "shard-1" ]})) !! 0 = Some Sample.stamped
  /\ labelMaps (reconciledWorld Sample.stampedWorld Sample.stamped
                  (Some {[ shardLabel := "shard-1" ]})) !! 0
     = Some {[ shardLabel := "shard-1" ]}.
Proof.
  destruct (process_never_mutates_cached_object Sample.accepting "root|shard-1"
              Sample.stampedWorld (false, None)
              (reconciledWorld Sample.stampedWorld Sample.stamped
                 (Some {[ shardLabel := "shard-1" ]})))
    as (Hs & Hm & _); [vm_compute; reflexivity | ].
  split; [apply Hs | apply Hm]; reflexivity.
Defined.

(** C9 as stated fails on [Start]: a worker count of zero, or a negative
    one, is not refused; [Start] runs to its shutdown with no worker. *)
Lemma Start_accepts_a_worker_count_that_is_not_positive :
  Start 0 Sample.emptyWorld = Some (tt, setCalls Sample.emptyWorld [QueueShutDown])
  /\ Start (-2) Sample.emptyWorld = Some (tt, setCalls Sample.emptyWorld [QueueShutDown])
  /\ ~ (forall numThreads (w w' : @World Sample.externals),
          Start numThreads w = Some (tt, w') -> (0 < numThreads)%Z).
Proof.
  split; [reflexivity | split; [reflexivity | ]].
  intros H. specialize (H 0%Z Sample.emptyWorld _ eq_refl). lia.
Qed.

Lemma requeue_is_followed_by_forget_witness :
  process Sample.accepting "root|shard-1" Sample.dequeuedWorld
  = Some ((true, None),
          setCalls (reconciledWorld Sample.dequeuedWorld Sample.bare None)
                   [ClientPatch (labelPatch Sample.bare None)])
  /\ exists before,
       processNextWorkItem Sample.accepting Sample.bareWorld
       = Some (true,
               setCalls (reconciledWorld Sample.dequeuedWorld Sample.bare None)
                 ([ClientPatch (labelPatch Sample.bare None)] ++ before ++
                  [QueueForget "root|shard-1"; QueueDone "root|shard-1"]))
       /\ before = [QueueAdd "root|shard-1"].
Proof.
  split; [vm_compute; reflexivity | ].
  apply (requeue_is_followed_by_forget Sample.accepting Sample.bareWorld "root|shard-1" []
           true
           (setCalls (reconciledWorld Sample.dequeuedWorld Sample.bare None)
                     [ClientPatch (labelPatch Sample.bare None)]));
    vm_compute; reflexivity.
Defined.

(* ===================================================================== *)
(** ** Further properties: what the patches contain *)
(* ===================================================================== *)

Section PatchDocuments.
Context {ext : Externals}.

Lemma jlookup_app k (a b : list (string * json)) :
  jlookup k (a ++ b)
  = match jlookup k a with Some v => Some v | None => jlookup k b end.
Proof.
  induction a as [ | [k' v] a IH]; [reflexivity | ].
  simpl. now destruct (String.eqb k k').
Qed.

(** Reading the marshalled labels is reading the map. *)
Lemma jlookup_pairs_list (l : list (string * string)) k :
  jlookup k (map (fun kv => (fst kv, JString (snd kv))) l)
  = JString <$> ((list_to_map l : gmap string string) !! k).
Proof.
  induction l as [ | [k' v] l IH].
  - rewrite list_to_map_nil, lookup_empty. reflexivity.
  - rewrite list_to_map_cons. cbn [map jlookup fst snd].
    destruct (String.eqb_spec k k') as [-> | Hne].
    + now rewrite lookup_insert_eq.
    + rewrite lookup_insert_ne by congruence. exact IH.
Qed.

Lemma jlookup_pairs (m : gmap string string) k :
  jlookup k (map (fun kv => (fst kv, JString (snd kv))) (map_to_list m))
  = JString <$> (m !! k).
Proof. now rewrite jlookup_pairs_list, list_to_map_to_list. Qed.

Lemma jlookup_notin k (b : list (string * json)) :
  k ∉ b.*1 -> jlookup k b = None.
Proof.
  induction b as [ | [k' v] b IH]; [reflexivity | ].
  simpl. intros Hn. apply not_elem_of_cons in Hn as [Hne Hn].
  destruct (String.eqb_spec k k'); [contradiction | auto].
Qed.

Lemma getDiff_notin k (a b : list (string * json)) :
  k ∉ b.*1 -> jlookup k (getDiff a b) = None.
Proof.
  induction b as [ | [k' v] b IH]; [reflexivity | ].
  simpl. intros Hn. apply not_elem_of_cons in Hn as [Hne Hn].
  destruct (jlookup k' a) as [av | ].
  - destruct (diffValue av v); [ | auto].
    simpl. destruct (String.eqb_spec k k'); [contradiction | auto].
  - simpl. destruct (String.eqb_spec k k'); [contradiction | auto].
Qed.

(** One key of the difference of two objects without repeated keys. *)
Lemma jlookup_getDiff k (a b : list (string * json)) :
  NoDup b.*1 ->
  jlookup k (getDiff a b)
  = match jlookup k b with
    | None => None
    | Some bv => match jlookup k a with
                 | None => Some bv
                 | Some av => diffValue av bv
                 end
    end.
Proof.
  induction b as [ | [k' v] b IH]; [reflexivity | ].
  intros Hnd. apply NoDup_cons in Hnd as [Hn Hnd]. simpl in Hn.
  cbn [getDiff jlookup]. destruct (String.eqb_spec k k') as [-> | Hne].
  - destruct (jlookup k' a) as [av | ].
    + destruct (diffValue av v) as [d | ].
      * simpl. now rewrite String.eqb_refl.
      * now apply getDiff_notin.
    + simpl. now rewrite String.eqb_refl.
  - destruct (jlookup k' a) as [av | ].
    + destruct (diffValue av v) as [d | ]; [ | auto].
      simpl. destruct (String.eqb_spec k k'); [contradiction | auto].
    + simpl. destruct (String.eqb_spec k k'); [contradiction | auto].
Qed.

Lemma jlookup_deletedKeys_kept k (a b : list (string * json)) :
  (forall v, jlookup k a = Some v -> jhas k b = true) ->
  jlookup k (deletedKeys a b) = None.
Proof.
  unfold deletedKeys. induction a as [ | [k' v] a IH]; [reflexivity | ].
  intros H. simpl in H. simpl.
  destruct (String.eqb_spec k k') as [-> | Hne].
  - rewrite (H v eq_refl). simpl.
    clear IH. induction a as [ | [k2 v2] a IH2]; [reflexivity | ].
    simpl. destruct (negb (jhas k2 b)) eqn:E; [ | exact IH2].
    simpl. destruct (String.eqb_spec k' k2) as [<- | ]; [ | exact IH2].
    rewrite (H v eq_refl) in E. discriminate.
  - destruct (negb (jhas k' b)).
    + simpl. destruct (String.eqb_spec k k'); [contradiction | auto].
    + auto.
Qed.

Lemma omitemptyMap_cases name L :
  omitemptyMap name L
  = if decide (default ∅ L = ∅) then []
    else [(name, JObject (map (fun kv => (fst kv, JString (snd kv)))
                              (map_to_list (default ∅ L))))].
Proof.
  unfold omitemptyMap. destruct (decide (default ∅ L = ∅)) as [-> | Hne].
  - now rewrite map_to_list_empty.
  - destruct (map_to_list (default ∅ L)) eqn:E; [ | reflexivity].
    apply map_to_list_empty_iff in E. contradiction.
Qed.

(** The difference between a label map and the same map with one label
    set: that label alone, with its new value. *)
Lemma labels_diff (Lc : gmap string string) (k0 n : string) k :
  Lc !! k0 <> Some n ->
  let a := map (fun kv => (fst kv, JString (snd kv))) (map_to_list Lc) in
  let b := map (fun kv => (fst kv, JString (snd kv))) (map_to_list (<[k0 := n]> Lc)) in
  jlookup k (getDiff a b ++ deletedKeys a b)
  = if String.eqb k k0 then Some (JString n) else None.
Proof.
  intros Hl a b.
  assert (Hnd : NoDup b.*1).
  { unfold b. rewrite <- list_fmap_compose.
    apply (NoDup_fst_map_to_list (<[k0 := n]> Lc)). }
  rewrite jlookup_app, (jlookup_getDiff k a b Hnd).
  unfold a at 1, b at 1. rewrite !jlookup_pairs.
  destruct (String.eqb_spec k k0) as [-> | Hne].
  - rewrite lookup_insert_eq. cbn [fmap option_fmap option_map].
    destruct (Lc !! k0) as [v0 | ] eqn:E0; [ | reflexivity].
    cbn [fmap option_fmap option_map diffValue sameType negb matchesValue].
    destruct (String.eqb_spec v0 n) as [-> | ]; [now contradiction Hl | reflexivity].
  - rewrite lookup_insert_ne by congruence.
    destruct (Lc !! k) as [v | ] eqn:E.
    + cbn [fmap option_fmap option_map]. rewrite diffValue_same_string.
      apply jlookup_deletedKeys_kept. intros _ _.
      unfold jhas, b. rewrite jlookup_pairs, lookup_insert_ne by congruence.
      now rewrite E.
    + cbn [fmap option_fmap option_map].
      apply jlookup_deletedKeys_kept. intros v Hv.
      unfold a in Hv. rewrite jlookup_pairs, E in Hv. discriminate.
Qed.

(** The [metadata] entry of a merge patch of two marshalled shards is the
    difference of the two metadata objects, left out when empty. *)
Lemma patchMetadata_merge uid rv L1 L2 st1 st2 uid' rv' :
  patchMetadata (CreateMergePatch (Marshal uid rv L1 st1) (Marshal uid' rv' L2 st2))
  = match getDiff (marshalObjectMeta uid rv L1) (marshalObjectMeta uid' rv' L2)
          ++ deletedKeys (marshalObjectMeta uid rv L1) (marshalObjectMeta uid' rv' L2) with
    | [] => None
    | d => Some (JObject d)
    end.
Proof.
  unfold CreateMergePatch, Marshal, patchMetadata.
  cbn -[diffValue marshalObjectMeta]. rewrite diffValue_object.
  destruct (getDiff (marshalObjectMeta uid rv L1) (marshalObjectMeta uid' rv' L2)
            ++ deletedKeys (marshalObjectMeta uid rv L1) (marshalObjectMeta uid' rv' L2)).
  - destruct (diffValue marshalZeroSpec marshalZeroSpec);
      destruct (diffValue (marshalStatus st1) (marshalStatus st2)); reflexivity.
  - reflexivity.
Qed.

(** A status patch holds no [metadata] entry at all: the patch of the
    status group cannot touch the labels, nor any other metadata. *)
Theorem status_patch_has_no_metadata (prev cur : ClusterWorkspaceShard) :
  patchMetadata (patchData (statusPatch prev cur)) = None.
Proof.
  unfold statusPatch, patchData. rewrite patchMetadata_merge.
  unfold marshalObjectMeta, omitempty.
  rewrite (omitemptyMap_no_entry "labels" None eq_refl).
  destruct (String.eqb (UID prev) EmptyString);
    destruct (String.eqb (ResourceVersion prev) EmptyString);
    cbn -[diffValue]; rewrite ?diffValue_same_string; reflexivity.
Qed.

(** Whenever the identity label of the cached shard is absent or differs
    from the name, the metadata of the label patch is a [labels] object and
    nothing else, and that object has one entry, the identity label with
    the shard's name: the labels the shard already has are neither
    rewritten nor removed. *)
Theorem label_patch_sets_only_the_identity_label (s : ClusterWorkspaceShard) L :
  default ∅ L !! shardLabel <> Some (Name s) ->
  exists d,
    patchMetadata (patchData (labelPatch s L)) = Some (JObject [("labels", JObject d)])
    /\ forall k, jlookup k d
                 = if String.eqb k shardLabel then Some (JString (Name s)) else None.
Proof.
  intros Hl. unfold labelPatch, patchData. rewrite patchMetadata_merge.
  unfold marshalObjectMeta. rewrite !omitemptyMap_cases.
  change (default ∅ (Some (stampedLabels s L))) with (stampedLabels s L).
  destruct (decide (stampedLabels s L = ∅)) as [He | _].
  { exfalso. apply (f_equal (fun m => m !! shardLabel)) in He.
    unfold stampedLabels in He. now rewrite lookup_insert_eq, lookup_empty in He. }
  set (b := map (fun kv => (fst kv, JString (snd kv))) (map_to_list (stampedLabels s L))).
  destruct (decide (default ∅ L = ∅)) as [Hno | Hsome].
  - exists b. split.
    + unfold omitempty.
      destruct (String.eqb (UID s) EmptyString);
        destruct (String.eqb (ResourceVersion s) EmptyString);
        cbn -[diffValue]; rewrite ?diffValue_same_string; reflexivity.
    + intros k. unfold b, stampedLabels. rewrite jlookup_pairs, Hno.
      destruct (String.eqb_spec k shardLabel) as [-> | Hne].
      * now rewrite lookup_insert_eq.
      * rewrite lookup_insert_ne by congruence. now rewrite lookup_empty.
  - set (a := map (fun kv => (fst kv, JString (snd kv))) (map_to_list (default ∅ L))).
    pose proof (fun k => labels_diff (default ∅ L) shardLabel (Name s) k Hl) as Hd.
    cbn zeta in Hd. fold a in Hd. fold (stampedLabels s L) in Hd. fold b in Hd.
    exists (getDiff a b ++ deletedKeys a b). split; [ | exact Hd].
    assert (Hdv : diffValue (JObject a) (JObject b)
                  = Some (JObject (getDiff a b ++ deletedKeys a b))).
    { rewrite diffValue_object.
      destruct (getDiff a b ++ deletedKeys a b) eqn:E; [ | reflexivity].
      specialize (Hd shardLabel). rewrite String.eqb_refl in Hd. discriminate. }
    unfold omitempty.
    destruct (String.eqb (UID s) EmptyString);
      destruct (String.eqb (ResourceVersion s) EmptyString);
      cbn -[diffValue]; rewrite ?diffValue_same_string, Hdv; reflexivity.
Qed.

End PatchDocuments.

(* ===================================================================== *)
(** ** Further properties: keys, [reconcile] and one pass *)
(* ===================================================================== *)

Section Passes.
Context {ext : Externals}.

Lemma splitSlash_nonempty s : splitSlash s <> [].
Proof.
  destruct s as [ | c rest]; simpl; [discriminate | ].
  destruct (Ascii.eqb c "/"); [discriminate | ].
  destruct (splitSlash rest); discriminate.
Qed.

Lemma splitSlash_noSlash s : noSlash s = true -> splitSlash s = [s].
Proof.
  induction s as [ | c rest IH]; [reflexivity | ].
  simpl. destruct (Ascii.eqb c "/"); [discriminate | ].
  simpl. intros H. now rewrite (IH H).
Qed.

Lemma splitSlash_single s x : splitSlash s = [x] -> noSlash s = true.
Proof.
  revert x. induction s as [ | c rest IH]; intros x; [reflexivity | ].
  simpl. destruct (Ascii.eqb c "/").
  - intros [= _ H]. now apply splitSlash_nonempty in H.
  - destruct (splitSlash rest) as [ | part parts] eqn:E; [now apply splitSlash_nonempty in E | ].
    intros [= _ ->]. simpl. now apply (IH part).
Qed.

Lemma splitSlash_leading_empty s parts :
  splitSlash s = EmptyString :: parts ->
  (s = EmptyString /\ parts = [])
  \/ exists rest, s = String "/" rest /\ splitSlash rest = parts.
Proof.
  destruct s as [ | c rest]; simpl.
  - intros [= <-]. now left.
  - destruct (Ascii.eqb_spec c "/") as [-> | ].
    + intros [= <-]. right. eauto.
    + destruct (splitSlash rest); discriminate.
Qed.

(** [process] works on a key exactly when the key has no slash, or has a
    single slash and that slash comes first (an empty namespace); every
    other key is dropped as malformed. *)
Theorem key_is_processed_iff key :
  malformedKey key = false
  <-> noSlash key = true
      \/ exists name, key = String "/" name /\ noSlash name = true.
Proof.
  unfold malformedKey, SplitMetaNamespaceKey. split.
  - destruct (splitSlash key) as [ | ns [ | name [ | ]]] eqn:E; try discriminate.
    + intros _. left. now apply (splitSlash_single key ns).
    + intros H. apply Bool.negb_false_iff, String.eqb_eq in H. subst ns.
      apply splitSlash_leading_empty in E as [[_ [=]] | (rest & -> & E)].
      right. exists rest. split; [reflexivity | ]. now apply (splitSlash_single rest name).
  - intros [H | (name & -> & H)].
    + now rewrite (splitSlash_noSlash key H).
    + cbn [splitSlash]. change (Ascii.eqb "/" "/") with true. cbv iota.
      now rewrite (splitSlash_noSlash name H).
Qed.

(** [reconcile] on any shard of the store returns nil; the shard keeps its
    name, identity, version and status; its label map afterwards holds the
    identity label with the shard's name and every other label as before;
    no other shard struct changes, and nothing is called. *)
Theorem reconcile_keeps_everything_else c (w : World) q s L :
  shards w !! q = Some s ->
  labelsAt w (Labels s) = Some L ->
  exists w1 s1 m N,
    reconcile c q w = Some (None, w1)
    /\ shards w1 !! q = Some s1
    /\ (Name s1 = Name s /\ UID s1 = UID s
        /\ ResourceVersion s1 = ResourceVersion s /\ Status s1 = Status s)
    /\ Labels s1 = Some m
    /\ labelMaps w1 !! m = Some N
    /\ N !! shardLabel = Some (Name s)
    /\ (forall k, k <> shardLabel -> N !! k = default ∅ L !! k)
    /\ (forall q', q' <> q -> shards w1 !! q' = shards w !! q')
    /\ (forall m', m' <> m -> m' < length (labelMaps w) ->
          labelMaps w1 !! m' = labelMaps w !! m')
    /\ calls w1 = calls w.
Proof.
  intros Hs HL. rewrite (reconcile_run c w q s L Hs HL).
  assert (HN : stampedLabels s L !! shardLabel = Some (Name s))
    by apply lookup_insert_eq.
  assert (HN' : forall k, k <> shardLabel -> stampedLabels s L !! k = default ∅ L !! k)
    by (intros k Hk; unfold stampedLabels; now rewrite lookup_insert_ne by congruence).
  unfold labelsAt in HL. destruct (Labels s) as [m | ] eqn:El.
  - destruct (labelMaps w !! m) as [cnt | ] eqn:Em; [ | discriminate].
    exists (setLabelMaps w (<[m := stampedLabels s L]> (labelMaps w))), s, m, (stampedLabels s L).
    split; [reflexivity | ]. split; [exact Hs | ]. split; [auto | ].
    split; [exact El | ].
    split; [simpl; apply list_lookup_insert_eq; now apply lookup_lt_Some in Em | ].
    split; [exact HN | ]. split; [exact HN' | ]. split; [reflexivity | ].
    split; [ | reflexivity].
    intros m' Hm' _. simpl. now apply list_lookup_insert_ne.
  - eexists _, (withLabels s (Some (length (labelMaps w)))), (length (labelMaps w)),
      (stampedLabels s L).
    split; [reflexivity | ]. simpl.
    split; [apply list_lookup_insert_eq; now apply lookup_lt_Some in Hs | ].
    split; [auto | ]. split; [reflexivity | ].
    split; [apply lookup_snoc_new | ].
    split; [exact HN | ]. split; [exact HN' | ].
    split; [intros q' Hq'; now apply list_lookup_insert_ne | ].
    split; [ | reflexivity].
    intros m' _ Hlt. now apply lookup_app_l.
Qed.

(** [reconcile] is idempotent: run again on the world it leaves, it
    returns nil and changes nothing. *)
Theorem reconcile_is_idempotent c (w : World) q s L :
  shards w !! q = Some s ->
  labelsAt w (Labels s) = Some L ->
  exists w1,
    reconcile c q w = Some (None, w1)
    /\ reconcile c q w1 = Some (None, w1).
Proof.
  intros Hs HL. rewrite (reconcile_run c w q s L Hs HL).
  assert (Hst : forall s', Name s' = Name s ->
                  stampedLabels s' (Some (stampedLabels s L)) = stampedLabels s L).
  { intros s' Hn. unfold stampedLabels. simpl. rewrite Hn. apply insert_insert_eq. }
  unfold labelsAt in HL. destruct (Labels s) as [m | ] eqn:El.
  - destruct (labelMaps w !! m) as [cnt | ] eqn:Em; [ | discriminate].
    eexists. split; [reflexivity | ].
    assert (Hm : m < length (labelMaps w)) by now apply lookup_lt_Some in Em.
    rewrite (reconcile_run c _ q s (Some (stampedLabels s L))).
    + rewrite El. simpl. rewrite (Hst s eq_refl), list_insert_insert_eq. reflexivity.
    + exact Hs.
    + rewrite El. simpl. now rewrite list_lookup_insert_eq.
  - eexists. split; [reflexivity | ].
    assert (Hq : q < length (shards w)) by now apply lookup_lt_Some in Hs.
    rewrite (reconcile_run c _ q (withLabels s (Some (length (labelMaps w))))
               (Some (stampedLabels s L))).
    + simpl. rewrite (Hst (withLabels s (Some (length (labelMaps w)))) eq_refl).
      rewrite insert_snoc. reflexivity.
    + simpl. now apply list_lookup_insert_eq.
    + simpl. now rewrite lookup_snoc_new.
Qed.

End Passes.

(* ===================================================================== *)
(** ** Further properties: what a pass does and what a worker does *)
(* ===================================================================== *)

Section Workers.
Context {ext : Externals}.

Lemma labelsChanged_true (w : World) s L :
  labelsAt w (Labels s) = Some L ->
  default ∅ L !! shardLabel <> Some (Name s) ->
  labelsChanged s L = true.
Proof.
  intros HL Hl. unfold labelsChanged.
  destruct (labelsDeepEqual L (Some (stampedLabels s L))) eqn:E.
  - apply labels_unchanged_iff in E. contradiction.
  - apply Bool.orb_true_r.
Qed.

(** The label group is patched exactly when the cached shard does not
    carry its identity label with its own name, whatever other labels it
    has: then the pass submits the label patch and returns [requeue =
    true] with the client's answer; otherwise it calls nothing and returns
    [(false, nil)]. *)
Theorem patched_iff_identity_label_missing_or_wrong c key name (w : World) p s L :
  SplitMetaNamespaceKey key = inl (EmptyString, name) ->
  clusterWorkspaceShardLister c key = inl p ->
  shards w !! p = Some s ->
  labelsAt w (Labels s) = Some L ->
  (default ∅ L !! shardLabel <> Some (Name s) ->
     process c key w
     = Some ((true, kcpClient c (labelPatch s L)),
             setCalls (reconciledWorld w s L)
                      (calls w ++ [ClientPatch (labelPatch s L)])))
  /\ (default ∅ L !! shardLabel = Some (Name s) ->
       process c key w = Some ((false, None), reconciledWorld w s L)).
Proof.
  intros Hkey Hget Hs HL.
  rewrite (process_found c key name w p s L Hkey Hget Hs HL).
  split; intros Hl.
  - now rewrite (labelsChanged_true w s L HL Hl).
  - now rewrite (labelsChanged_false w s L HL Hl).
Qed.

(** Every error a pass returns comes with [requeue = true], and it is
    either the lister's error (not a not-found one, nothing was called) or
    the answer of the client to the one patch the pass submitted. *)
Theorem process_error_origin c key (w : World) res w' err :
  process c key w = Some (res, w') ->
  snd res = Some err ->
  fst res = true
  /\ ((clusterWorkspaceShardLister c key = inr err
       /\ IsNotFound err = false /\ w' = w)
      \/ exists call,
           kcpClient c call = Some err
           /\ calls w' = calls w ++ [ClientPatch call]).
Proof.
  intros H Herr.
  destruct (process_cases c key w res w' H)
    as [(_ & -> & _) | [(name & e & _ & Hget & -> & ->)
                       | (name & p & s & L & _ & _ & _ & _ & E)]].
  - discriminate.
  - destruct (IsNotFound e) eqn:Enf; [discriminate | ].
    injection Herr as ->. split; [reflexivity | left; auto].
  - destruct (labelsChanged s L); injection E as -> ->; [ | discriminate].
    simpl in Herr. split; [reflexivity | right]. exists (labelPatch s L). auto.
Qed.

Lemma process_effects c key (w : World) res w' :
  process c key w = Some (res, w') ->
  queued w' = queued w
  /\ shuttingDown w' = shuttingDown w
  /\ ((calls w' = calls w /\ (fst res = true -> exists err, snd res = Some err))
      \/ exists call,
           calls w' = calls w ++ [ClientPatch call]
           /\ patchCluster call = RootCluster
           /\ patchType call = MergePatchType
           /\ patchSubresources call = []
           /\ (exists p s, clusterWorkspaceShardLister c key = inl p
                           /\ shards w !! p = Some s /\ patchName call = Name s)
           /\ fst res = true).
Proof.
  intros H.
  destruct (process_cases c key w res w' H)
    as [(_ & -> & ->) | [(name & e & _ & Hget & -> & ->)
                       | (name & p & s & L & _ & Hget & Hs & _ & E)]].
  - split; [reflexivity | split; [reflexivity | left]]. split; [reflexivity | discriminate].
  - split; [reflexivity | split; [reflexivity | left]]. split; [reflexivity | ].
    destruct (IsNotFound e); [discriminate | eauto].
  - destruct (labelsChanged s L); injection E as -> ->.
    + split; [reflexivity | split; [reflexivity | right]].
      exists (labelPatch s L). repeat (split; [reflexivity | ]).
      split; [ | reflexivity]. exists p, s. auto.
    + split; [reflexivity | split; [reflexivity | left]]. split; [reflexivity | discriminate].
Qed.

Lemma cacheValid_reconciledWorld c (w : World) s L :
  cacheValid c w -> cacheValid c (reconciledWorld w s L).
Proof.
  intros Hv key p Hget. destruct (Hv key p Hget) as (s0 & L0 & Hs0 & HL0).
  exists s0, L0. split.
  - simpl. now apply lookup_snoc_old.
  - unfold labelsAt in *. destruct (Labels s0) as [m | ]; [ | exact HL0].
    simpl. destruct (labelMaps w !! m) as [cnt | ] eqn:Em; [ | discriminate].
    now rewrite (lookup_snoc_old _ _ _ _ Em).
Qed.

Lemma cacheValid_same_store c (w w' : World) :
  shards w' = shards w -> labelMaps w' = labelMaps w ->
  cacheValid c w -> cacheValid c w'.
Proof.
  intros Hs Hm Hv key p Hget. destruct (Hv key p Hget) as (s0 & L0 & Hs0 & HL0).
  exists s0, L0. rewrite Hs. split; [exact Hs0 | ].
  unfold labelsAt in *. now rewrite Hm.
Qed.

Lemma process_on_valid_cache c key (w : World) :
  cacheValid c w ->
  exists res w', process c key w = Some (res, w') /\ cacheValid c w'.
Proof.
  intros Hv.
  destruct (malformedKey key) eqn:Emal.
  - exists (false, None), w. split; [now apply process_malformed | exact Hv].
  - unfold malformedKey in Emal.
    destruct (SplitMetaNamespaceKey key) as [[namespace name] | ] eqn:Ekey; [ | discriminate].
    apply Bool.negb_false_iff, String.eqb_eq in Emal. subst namespace.
    destruct (clusterWorkspaceShardLister c key) as [p | err] eqn:Eget.
    + destruct (Hv key p Eget) as (s & L & Hs & HL).
      rewrite (process_found c key name w p s L Ekey Eget Hs HL).
      destruct (labelsChanged s L); eexists _, _; (split; [reflexivity | ]).
      * apply (cacheValid_same_store c (reconciledWorld w s L)); try reflexivity.
        now apply cacheValid_reconciledWorld.
      * now apply cacheValid_reconciledWorld.
    + rewrite (process_lister_error c key name err w Ekey Eget).
      eexists _, _. split; [reflexivity | exact Hv].
Qed.

(** A pass leaves the work queue alone and calls at most one thing: a merge
    patch on the root cluster, without sub-resource, of the object named
    like the cached shard.  A pass that submitted a patch asks for another
    pass. *)
Theorem process_calls_at_most_one_patch c key (w : World) res w' :
  process c key w = Some (res, w') ->
  queued w' = queued w
  /\ shuttingDown w' = shuttingDown w
  /\ ((calls w' = calls w /\ (fst res = true -> exists err, snd res = Some err))
      \/ exists call,
           calls w' = calls w ++ [ClientPatch call]
           /\ patchCluster call = RootCluster
           /\ patchType call = MergePatchType
           /\ patchSubresources call = []
           /\ (exists p s, clusterWorkspaceShardLister c key = inl p
                           /\ shards w !! p = Some s /\ patchName call = Name s)
           /\ fst res = true).
Proof. exact (process_effects c key w res w'). Qed.

(** On a valid cache a pass always returns, whatever the key, and leaves
    the cache valid. *)
Theorem process_returns_on_valid_cache c key (w : World) :
  cacheValid c w ->
  exists res w', process c key w = Some (res, w') /\ cacheValid c w'.
Proof. exact (process_on_valid_cache c key w). Qed.

(** One iteration of the worker on a valid cache and a queue that holds a
    key: the key is taken, settled once and marked done once. *)
Lemma processNextWorkItem_step c (w : World) key rest :
  cacheValid c w ->
  queued w = key :: rest ->
  exists w2,
    processNextWorkItem c w = Some (true, w2)
    /\ queued w2 = rest
    /\ shuttingDown w2 = shuttingDown w
    /\ cacheValid c w2
    /\ doneKeys (calls w2) = doneKeys (calls w) ++ [key]
    /\ settledKeys (calls w2) = settledKeys (calls w) ++ [key].
Proof.
  intros Hv Hq.
  assert (Hv0 : cacheValid c (setQueued w rest))
    by (apply (cacheValid_same_store c w); auto).
  destruct (process_on_valid_cache c key _ Hv0) as (res & w1 & Hp & Hv1).
  destruct (process_effects c key _ res w1 Hp) as (Hq1 & Hsd1 & Hc1).
  exists (setCalls w1 (calls w1 ++ afterProcess key res)).
  unfold processNextWorkItem.
  rewrite (processNextWorkItemWith_run _ w key rest res w1 Hq Hp).
  split; [reflexivity | ]. split; [exact Hq1 | ]. split; [exact Hsd1 | ].
  split; [apply (cacheValid_same_store c w1); auto | ].
  assert (Hd : doneKeys (calls w1) = doneKeys (calls w)
               /\ settledKeys (calls w1) = settledKeys (calls w)).
  { destruct Hc1 as [[-> _] | (call & -> & _)]; [auto | ].
    unfold doneKeys, settledKeys. rewrite !omap_app. simpl.
    now rewrite !app_nil_r. }
  destruct Hd as [Hd Hs]. cbn [calls setCalls].
  unfold doneKeys, settledKeys in *. rewrite !omap_app, Hd, Hs.
  unfold afterProcess. destruct res as [requeue [err | ]]; [ | destruct requeue]; auto.
Qed.

(** A worker on a queue that has been shut down drains it: on a valid cache
    and with enough iterations allowed, [startWorker] returns once the
    queue is empty, and in between every key the queue held was marked
    done exactly once and settled exactly once (forgotten or re-added with
    rate limiting), in the order of the queue. *)
Theorem startWorker_drains_the_queue c (w : World) fuel :
  cacheValid c w ->
  shuttingDown w = true ->
  length (queued w) < fuel ->
  exists w',
    startWorker c fuel w = Some (tt, w')
    /\ queued w' = []
    /\ doneKeys (calls w') = doneKeys (calls w) ++ queued w
    /\ settledKeys (calls w') = settledKeys (calls w) ++ queued w.
Proof.
  remember (queued w) as q eqn:Eq. revert w fuel Eq.
  induction q as [ | key rest IH]; intros w fuel Eq Hv Hsd Hfuel.
  - destruct fuel as [ | n]; [simpl in Hfuel; lia | ].
    exists w. unfold startWorker. cbn [startWorkerWith]. unfold bind.
    fold (processNextWorkItem c).
    unfold processNextWorkItem.
    rewrite (processNextWorkItemWith_quit _ w (eq_sym Eq) Hsd).
    split; [reflexivity | ]. split; [now symmetry | ].
    now rewrite !app_nil_r.
  - destruct fuel as [ | n]; [simpl in Hfuel; lia | ].
    destruct (processNextWorkItem_step c w key rest Hv (eq_sym Eq))
      as (w2 & Hstep & Hq2 & Hsd2 & Hv2 & Hd2 & Hs2).
    destruct (IH w2 n (eq_sym Hq2) Hv2) as (w' & Hrun & Hq' & Hd' & Hs').
    { now rewrite Hsd2. }
    { simpl in Hfuel. lia. }
    exists w'. unfold startWorker in *. cbn [startWorkerWith]. unfold bind at 1.
    rewrite Hstep. split; [exact Hrun | ]. split; [exact Hq' | ].
    rewrite Hd', Hs', Hd2, Hs2, <- !app_assoc. auto.
Qed.

(** When the reconcile function returns an error, the pass stops there:
    it returns that error with [requeue = true] and submits no patch. *)
Theorem reconcile_error_ends_the_pass
    (reconcile : loc -> M (option error)) c key name (w : World) p q w1 w2 err :
  SplitMetaNamespaceKey key = inl (EmptyString, name) ->
  clusterWorkspaceShardLister c key = inl p ->
  DeepCopy p w = Some (q, w1) ->
  reconcile q w1 = Some (Some err, w2) ->
  processWith reconcile c key w = Some ((true, Some err), w2)
  /\ forall rest w0, queued w0 = key :: rest -> setQueued w0 rest = w ->
       processNextWorkItemWith (processWith reconcile c) w0
       = Some (true,
               setCalls w2
                 (calls w2 ++
                  [HandleError (Errorf_w "%q controller failed to sync %q, err: %w"
                                  [ArgString ControllerName; ArgString key] err);
                   QueueAddRateLimited key;
                   QueueDone key])).
Proof.
  intros Hkey Hget Hcopy Hrec.
  assert (E : processWith reconcile c key w = Some ((true, Some err), w2)).
  { unfold processWith. rewrite Hkey, Hget. simpl.
    now rewrite (bind_Some _ _ _ _ _ Hcopy), (bind_Some _ _ _ _ _ Hrec). }
  split; [exact E | ].
  intros rest w0 Hq <-.
  now rewrite (processNextWorkItemWith_run _ w0 key rest _ w2 Hq E).
Qed.

(** A shard whose label map is nil is patched whatever the reconcile
    function did to the labels: when the status group is unchanged and the
    original's [Labels] is nil, the pass submits a patch without
    sub-resource and returns [requeue = true], even if the labels of the
    copy compare equal to nil. *)
Theorem nil_labels_are_always_patched
    (reconcile : loc -> M (option error)) c key name (w : World) p q w1 w2 prev cur L2 :
  SplitMetaNamespaceKey key = inl (EmptyString, name) ->
  clusterWorkspaceShardLister c key = inl p ->
  DeepCopy p w = Some (q, w1) ->
  reconcile q w1 = Some (None, w2) ->
  shards w2 !! p = Some prev ->
  shards w2 !! q = Some cur ->
  statusDeepEqual (Status prev) (Status cur) = true ->
  Labels prev = None ->
  labelsAt w2 (Labels cur) = Some L2 ->
  exists call,
    processWith reconcile c key w
    = Some ((true, kcpClient c call), setCalls w2 (calls w2 ++ [ClientPatch call]))
    /\ patchSubresources call = []
    /\ patchData call
       = CreateMergePatch
           (Marshal (UID prev) (ResourceVersion prev) None zeroStatus)
           (Marshal (UID prev) (ResourceVersion prev) L2 zeroStatus).
Proof.
  intros Hkey Hget Hcopy Hrec Hprev Hcur Hst Hnil HL2.
  exists {| patchCluster := RootCluster; patchName := Name cur;
            patchType := MergePatchType;
            patchData := CreateMergePatch
                           (Marshal (UID prev) (ResourceVersion prev) None zeroStatus)
                           (Marshal (UID prev) (ResourceVersion prev) L2 zeroStatus);
            patchSubresources := [] |}.
  split; [ | split; reflexivity].
  unfold processWith. rewrite Hkey, Hget. simpl.
  rewrite (bind_Some _ _ _ _ _ Hcopy), (bind_Some _ _ _ _ _ Hrec).
  unfold bind at 1, loadShard at 1. rewrite Hprev.
  unfold bind at 1, loadShard at 1. rewrite Hcur.
  rewrite Hst. cbn [negb]. rewrite Hnil.
  unfold bind at 1. cbn [readLabels]. unfold ret at 1.
  unfold bind at 1. rewrite (readLabels_run w2 (Labels cur) L2 HL2).
  cbn [orb]. unfold Patch, bind, emit, ret. simpl.
  match goal with |- context [kcpClient c ?call] => destruct (kcpClient c call) end;
    reflexivity.
Qed.

(** The handlers of the informer make one call for each notification, in
    order: [Add] with the key of the notified object (the new one for an
    update), or a report to the error sink when no key can be built, after
    which the later notifications are still handled. *)
Theorem deliver_calls (evs : list InformerEvent) (w : World) :
  deliver evs w
  = Some (tt, setCalls w (calls w ++ map (fun ev => enqueueCall (notified ev)) evs)).
Proof.
  revert w. induction evs as [ | ev rest IH]; intros w.
  - simpl. unfold ret. now rewrite app_nil_r, setCalls_id.
  - cbn [deliver map]. unfold bind.
    assert (E : handle ev w = Some (tt, setCalls w (calls w ++ [enqueueCall (notified ev)]))).
    { unfold handle, enqueueCall, notified, enqueue.
      destruct ev as [obj | old obj]; destruct (MetaClusterNamespaceKeyFunc obj); reflexivity. }
    rewrite E, IH. simpl. now rewrite <- app_assoc.
Qed.

End Workers.

Section PatchAndQueue.
Context {ext : Externals}.

(** A key whose shard had to be patched is never just forgotten: after the
    patch [processNextWorkItem] re-adds it, with [Add] and then [Forget]
    when the client accepted the patch, with a report to the error sink and
    [AddRateLimited], without [Forget], when the client rejected it. *)
Theorem patched_key_is_added_again c key name (w : World) rest p s L :
  queued w = key :: rest ->
  SplitMetaNamespaceKey key = inl (EmptyString, name) ->
  clusterWorkspaceShardLister c key = inl p ->
  shards w !! p = Some s ->
  labelsAt w (Labels s) = Some L ->
  default ∅ L !! shardLabel <> Some (Name s) ->
  processNextWorkItem c w
  = Some (true,
          setCalls (reconciledWorld (setQueued w rest) s L)
            (calls w ++ [ClientPatch (labelPatch s L)] ++
             match kcpClient c (labelPatch s L) with
             | Some err =>
                 [HandleError (Errorf_w "%q controller failed to sync %q, err: %w"
                                 [ArgString ControllerName; ArgString key] err);
                  QueueAddRateLimited key;
                  QueueDone key]
             | None => [QueueAdd key; QueueForget key; QueueDone key]
             end)).
Proof.
  intros Hq Hkey Hget Hs HL Hl.
  pose proof (process_found c key name (setQueued w rest) p s L Hkey Hget Hs HL) as Hp.
  rewrite (labelsChanged_true (setQueued w rest) s L HL Hl) in Hp.
  unfold processNextWorkItem.
  rewrite (processNextWorkItemWith_run _ w key rest _ _ Hq Hp).
  unfold afterProcess. cbn [fst snd calls setCalls setQueued].
  rewrite <- app_assoc.
  now destruct (kcpClient c (labelPatch s L)).
Qed.

End PatchAndQueue.


(* ===================================================================== *)
(** ** The further properties at concrete inputs *)
(* ===================================================================== *)

(** The cache of the sample controllers is valid as soon as pointer 0 is a
    shard with a readable label map. *)
Lemma oneShardLister_valid (w : @World Sample.externals) s L :
  shards w !! 0 = Some s ->
  labelsAt w (Labels s) = Some L ->
  cacheValid Sample.accepting w.
Proof.
  intros Hs HL key p Hget. simpl in Hget. unfold Sample.oneShardLister in Hget.
  destruct (String.eqb key "root|shard-1"); [ | discriminate].
  injection Hget as <-. eauto.
Qed.

Lemma label_patch_sets_only_the_identity_label_witness :
  default ∅ (Some Sample.staleLabels) !! shardLabel <> Some (Name Sample.mislabelled)
  /\ exists d,
       patchMetadata (patchData (labelPatch Sample.mislabelled (Some Sample.staleLabels)))
       = Some (JObject [("labels", JObject d)])
       /\ forall k, jlookup k d
                    = if String.eqb k shardLabel then Some (JString "shard-1") else None.
Proof.
  assert (H : default ∅ (Some Sample.staleLabels) !! shardLabel
              <> Some (Name Sample.mislabelled))
    by (vm_compute; discriminate).
  split; [exact H | ].
  exact (label_patch_sets_only_the_identity_label Sample.mislabelled
           (Some Sample.staleLabels) H).
Defined.

Lemma reconcile_keeps_everything_else_witness :
  exists w1 s1 m N,
    reconcile Sample.accepting 0 Sample.mislabelledWorld = Some (None, w1)
    /\ shards w1 !! 0 = Some s1
    /\ Labels s1 = Some m
    /\ labelMaps w1 !! m = Some N
    /\ N !! shardLabel = Some "shard-1"
    /\ N !! "team" = Some "blue".
Proof.
  destruct (reconcile_keeps_everything_else Sample.accepting Sample.mislabelledWorld 0
              Sample.mislabelled (Some Sample.staleLabels))
    as (w1 & s1 & m & N & Hr & Hs & _ & Hl & Hm & Hid & Hother & _);
    try reflexivity.
  exists w1, s1, m, N. repeat (split; [assumption | ]).
  rewrite (Hother "team"); [vm_compute; reflexivity | discriminate].
Defined.

Lemma reconcile_is_idempotent_witness :
  exists w1,
    reconcile Sample.accepting 0 Sample.bareWorld = Some (None, w1)
    /\ reconcile Sample.accepting 0 w1 = Some (None, w1).
Proof.
  apply (reconcile_is_idempotent Sample.accepting Sample.bareWorld 0 Sample.bare None);
    reflexivity.
Defined.

Lemma patched_iff_identity_label_missing_or_wrong_witness :
  process Sample.rejecting "root|shard-1" Sample.mislabelledWorld
  = Some ((true, Some Sample.conflict),
          setCalls (reconciledWorld Sample.mislabelledWorld Sample.mislabelled
                      (Some Sample.staleLabels))
                   [ClientPatch (labelPatch Sample.mislabelled (Some Sample.staleLabels))]).
Proof.
  apply (patched_iff_identity_label_missing_or_wrong Sample.rejecting "root|shard-1"
           "root|shard-1" Sample.mislabelledWorld 0 Sample.mislabelled
           (Some Sample.staleLabels)); try reflexivity.
  vm_compute. discriminate.
Defined.

Lemma process_error_origin_witness :
  fst (true, Some Sample.conflict) = true
  /\ ((clusterWorkspaceShardLister Sample.rejecting "root|shard-1" = inr Sample.conflict
       /\ IsNotFound Sample.conflict = false
       /\ setCalls (reconciledWorld Sample.bareWorld Sample.bare None)
                   [ClientPatch (labelPatch Sample.bare None)] = Sample.bareWorld)
      \/ exists call,
           kcpClient Sample.rejecting call = Some Sample.conflict
           /\ calls (setCalls (reconciledWorld Sample.bareWorld Sample.bare None)
                              [ClientPatch (labelPatch Sample.bare None)])
              = calls Sample.bareWorld ++ [ClientPatch call]).
Proof.
  apply (process_error_origin Sample.rejecting "root|shard-1" Sample.bareWorld
           (true, Some Sample.conflict)
           (setCalls (reconciledWorld Sample.bareWorld Sample.bare None)
                     [ClientPatch (labelPatch Sample.bare None)])
           Sample.conflict);
    [vm_compute; reflexivity | reflexivity].
Defined.

Lemma process_calls_at_most_one_patch_witness :
  queued (setCalls (reconciledWorld Sample.bareWorld Sample.bare None)
                   [ClientPatch (labelPatch Sample.bare None)])
  = queued Sample.bareWorld.
Proof.
  destruct (process_calls_at_most_one_patch Sample.accepting "root|shard-1" Sample.bareWorld
              (true, None)
              (setCalls (reconciledWorld Sample.bareWorld Sample.bare None)
                        [ClientPatch (labelPatch Sample.bare None)]))
    as (Hq & _); [vm_compute; reflexivity | exact Hq].
Defined.

Lemma process_returns_on_valid_cache_witness :
  exists res w',
    process Sample.accepting "root|shard-1" Sample.mislabelledWorld = Some (res, w')
    /\ cacheValid Sample.accepting w'.
Proof.
  apply (process_returns_on_valid_cache Sample.accepting "root|shard-1"
           Sample.mislabelledWorld).
  apply (oneShardLister_valid Sample.mislabelledWorld Sample.mislabelled
           (Some Sample.staleLabels)); reflexivity.
Defined.

Lemma startWorker_drains_the_queue_witness :
  exists w',
    startWorker Sample.accepting 3 Sample.closingWorld = Some (tt, w')
    /\ queued w' = []
    /\ doneKeys (calls w') = ["root|shard-1"; "a/b/c"]
    /\ settledKeys (calls w') = ["root|shard-1"; "a/b/c"].
Proof.
  apply (startWorker_drains_the_queue Sample.accepting Sample.closingWorld 3).
  - apply (oneShardLister_valid Sample.closingWorld Sample.bare None); reflexivity.
  - reflexivity.
  - simpl. lia.
Defined.

Lemma reconcile_error_ends_the_pass_witness :
  processWith Sample.failing Sample.accepting "root|shard-1" Sample.bareWorld
  = Some ((true, Some Sample.internal), Sample.copiedWorld).
Proof.
  apply (reconcile_error_ends_the_pass Sample.failing Sample.accepting "root|shard-1"
           "root|shard-1" Sample.bareWorld 0 1 Sample.copiedWorld Sample.copiedWorld
           Sample.internal); reflexivity.
Defined.

Lemma nil_labels_are_always_patched_witness :
  exists call,
    processWith Sample.idle Sample.accepting "root|shard-1" Sample.bareWorld
    = Some ((true, kcpClient Sample.accepting call),
            setCalls Sample.copiedWorld (calls Sample.copiedWorld ++ [ClientPatch call]))
    /\ patchSubresources call = []
    /\ patchData call
       = CreateMergePatch
           (Marshal (ext := Sample.externals)
              (UID Sample.bare) (ResourceVersion Sample.bare) None zeroStatus)
           (Marshal (ext := Sample.externals)
              (UID Sample.bare) (ResourceVersion Sample.bare) None zeroStatus).
Proof.
  apply (nil_labels_are_always_patched Sample.idle Sample.accepting "root|shard-1"
           "root|shard-1" Sample.bareWorld 0 1 Sample.copiedWorld Sample.copiedWorld
           Sample.bare Sample.bare None); reflexivity.
Defined.

Lemma patched_key_is_added_again_witness :
  processNextWorkItem Sample.rejecting Sample.mislabelledWorld
  = Some (true,
          setCalls (reconciledWorld (setQueued Sample.mislabelledWorld [])
                      Sample.mislabelled (Some Sample.staleLabels))
            ([ClientPatch (labelPatch Sample.mislabelled (Some Sample.staleLabels));
              HandleError (Errorf_w "%q controller failed to sync %q, err: %w"
                             [ArgString ControllerName; ArgString "root|shard-1"]
                             Sample.conflict);
              QueueAddRateLimited "root|shard-1";
              QueueDone "root|shard-1"])).
Proof.
  apply (patched_key_is_added_again Sample.rejecting "root|shard-1" "root|shard-1"
           Sample.mislabelledWorld [] 0 Sample.mislabelled (Some Sample.staleLabels));
    try reflexivity.
  vm_compute. discriminate.
Defined.

(* ===================================================================== *)
(** ** The status group in a pass of [process] *)
(* ===================================================================== *)

Section StatusFirst.
Context {ext : Externals}.


End StatusFirst.

